(** * llama4micro: the appliance controller of [main.cc]

    A shallow embedding of [src/main.cc]: the global engine state, the
    statements of [LoadLlamaModel], [UnloadLlamaModel], [TellStory] and
    [app_main] as a small-step machine over program points named after the
    source lines, and the button interrupt as an asynchronous action that
    may be interleaved between any two statements of the task. *)

From Stdlib Require Import String.
From Stdlib Require Import ZArith List Bool Lia.
Import ListNotations.
Local Open Scope Z_scope.

(** ** Constants of [main.cc] (lines 15-35) *)

Definition kLlamaModelPath : string := "/data/stories15M_q80.bin".
Definition kLlamaTokenizerPath : string := "/data/tokenizer.bin".
Definition kSteps : Z := 256.
Definition kPrompt : string := EmptyString.
Definition kButtonDebounceUs : Z := 50000.

(** [int] is a 32-bit signed integer on the target. The code only compares
    [steps] and [seq_len], so no wrap-around is involved. *)
Definition is_int (z : Z) : Prop := - 2 ^ 31 <= z < 2 ^ 31.

(** ** Step budget (lines 45-47)

    [if (steps == 0 || steps > transformer.config.seq_len)
       steps = transformer.config.seq_len;]
    as a function of the model maximum [M] and the requested budget [r]. *)
Definition ResolveStepBudget (M r : Z) : Z :=
  if (r =? 0) || (r >? M) then M else r.

(** ** Observable events *)

Inductive Led := kStatus | kUser.

Inductive Buffer := llama_model_buffer | llama_tokenizer_buffer.

Inductive EngineObj := transformer | tokenizer | sampler.

Inductive Msg :=
| MsgLoading        (* line 39 *)
| MsgLoadingTook    (* line 59 *)
| MsgUnloading      (* line 64 *)
| MsgGenerating     (* line 76 *)
| MsgAveraged.      (* line 82 *)

Inductive Event :=
| EvGpioConfigureInterrupt (debounce_us : Z)
| EvLedSet (l : Led) (on : bool)
| EvPrintf (m : Msg)
| EvNew (b : Buffer)
| EvDelete (b : Buffer)
| EvBuild (o : EngineObj)
| EvFree (o : EngineObj)
| EvFatal (o : EngineObj)
| EvGenerateCall (prompt : string) (nsteps : Z) (gs : Z)
| EvGenerateReturn
| EvTaskSuspend.

(** ** The outside world

    What the engine finds on the file system and what the kernel's tick
    counter reads when the sampler is seeded. *)
Record Header := { h_seq_len : Z; h_vocab_size : Z; h_group_size : Z }.

Record World := {
  model_artifact : option Header;  (* [None]: missing or malformed *)
  tokenizer_artifact : bool;       (* [false]: missing or malformed *)
  tick_count : Z
}.

(** ** Program points

    One per statement, named after the line of [main.cc] it stands for.
    [L103_Parked] is the task inside [vTaskSuspend]; [L79_GenerateRunning]
    is the task inside [generate]; [Halted] is the task after a fatal load
    failure. *)
Inductive PC :=
| L89_GpioConfigureInterrupt
| L95_LedStatusOn
| L96_LedUserOff
| L39_PrintLoading
| L42_NewModelBuffer
| L43_BuildTransformer
| L45_ClampSteps
| L49_NewTokenizerBuffer
| L50_BuildTokenizer
| L54_BuildSampler
| L59_PrintLoadingTook
| L101_LedStatusOff
| L102_LedUserOn
| L103_TaskSuspend
| L103_Parked
| L107_LedStatusOn
| L108_LedUserOff
| L76_PrintGenerating
| L79_GenerateCall
| L79_GenerateRunning
| L82_PrintAveraged
| Halted.

(** ** Machine state: the globals of lines 26-32, the task's scheduler
    state, the two LEDs and the trace of events so far (oldest first). *)
Record State := {
  pc : PC;
  suspended : bool;        (* the task is on the kernel's suspended list *)
  isr_registered : bool;   (* the button callback of line 91 is installed *)
  led_status : bool;
  led_user : bool;
  steps : Z;               (* line 29 *)
  seq_len : Z;             (* transformer.config.seq_len *)
  vocab_size : Z;          (* transformer.config.vocab_size *)
  group_size : Z;          (* line 28 *)
  rng_seed : Z;            (* the sampler's seed, line 53 *)
  trace : list Event
}.

Definition goto (p : PC) (s : State) : State :=
  {| pc := p; suspended := suspended s; isr_registered := isr_registered s;
     led_status := led_status s; led_user := led_user s; steps := steps s;
     seq_len := seq_len s; vocab_size := vocab_size s;
     group_size := group_size s; rng_seed := rng_seed s; trace := trace s |}.

Definition emit (e : Event) (s : State) : State :=
  {| pc := pc s; suspended := suspended s; isr_registered := isr_registered s;
     led_status := led_status s; led_user := led_user s; steps := steps s;
     seq_len := seq_len s; vocab_size := vocab_size s;
     group_size := group_size s; rng_seed := rng_seed s;
     trace := trace s ++ [e] |}.

Definition set_suspended (b : bool) (s : State) : State :=
  {| pc := pc s; suspended := b; isr_registered := isr_registered s;
     led_status := led_status s; led_user := led_user s; steps := steps s;
     seq_len := seq_len s; vocab_size := vocab_size s;
     group_size := group_size s; rng_seed := rng_seed s; trace := trace s |}.

Definition set_isr_registered (s : State) : State :=
  {| pc := pc s; suspended := suspended s; isr_registered := true;
     led_status := led_status s; led_user := led_user s; steps := steps s;
     seq_len := seq_len s; vocab_size := vocab_size s;
     group_size := group_size s; rng_seed := rng_seed s; trace := trace s |}.

Definition set_led (l : Led) (on : bool) (s : State) : State :=
  {| pc := pc s; suspended := suspended s; isr_registered := isr_registered s;
     led_status := match l with kStatus => on | kUser => led_status s end;
     led_user := match l with kStatus => led_user s | kUser => on end;
     steps := steps s; seq_len := seq_len s; vocab_size := vocab_size s;
     group_size := group_size s; rng_seed := rng_seed s; trace := trace s |}.

Definition set_steps (n : Z) (s : State) : State :=
  {| pc := pc s; suspended := suspended s; isr_registered := isr_registered s;
     led_status := led_status s; led_user := led_user s; steps := n;
     seq_len := seq_len s; vocab_size := vocab_size s;
     group_size := group_size s; rng_seed := rng_seed s; trace := trace s |}.

Definition set_header (h : Header) (s : State) : State :=
  {| pc := pc s; suspended := suspended s; isr_registered := isr_registered s;
     led_status := led_status s; led_user := led_user s; steps := steps s;
     seq_len := h_seq_len h; vocab_size := h_vocab_size h;
     group_size := h_group_size h; rng_seed := rng_seed s; trace := trace s |}.

Definition set_rng_seed (n : Z) (s : State) : State :=
  {| pc := pc s; suspended := suspended s; isr_registered := isr_registered s;
     led_status := led_status s; led_user := led_user s; steps := steps s;
     seq_len := seq_len s; vocab_size := vocab_size s;
     group_size := group_size s; rng_seed := n; trace := trace s |}.

(** ** Platform and kernel primitives used by [main.cc] *)

(** [LedSet(led, on)] of libs/base/led.h. *)
Definition LedSet (l : Led) (on : bool) (s : State) : State :=
  emit (EvLedSet l on) (set_led l on s).

Definition printf (m : Msg) (s : State) : State := emit (EvPrintf m) s.

(** [GpioConfigureInterrupt] (lines 89-92): installs the callback. *)
Definition GpioConfigureInterrupt (s : State) : State :=
  emit (EvGpioConfigureInterrupt kButtonDebounceUs) (set_isr_registered s).

(** [vTaskSuspend(nullptr)] of the FreeRTOS kernel: the calling task is
    moved to the suspended list and stops running. *)
Definition vTaskSuspend (s : State) : State :=
  emit EvTaskSuspend (set_suspended true s).

(** [xTaskResumeFromISR(handle)] of the FreeRTOS kernel (tasks.c): it acts
    only [if (prvTaskIsTaskSuspended(pxTCB) != pdFALSE)], moving the task to
    the ready list; on a task that is not suspended it does nothing and
    records nothing. *)
Definition xTaskResumeFromISR (s : State) : State :=
  if suspended s then set_suspended false s else s.

(** Modelled from the spec: [build_transformer] of llama2.cc, which is not
    part of the sources at hand. A readable, well-formed model artifact
    yields the header values (sequence length, vocabulary size, group
    size); a missing or malformed one is fatal: a diagnostic is reported
    and the task halts. *)
Definition build_transformer (w : World) (s : State) : State :=
  match model_artifact w with
  | Some h => goto L45_ClampSteps (set_header h (emit (EvBuild transformer) s))
  | None => goto Halted (emit (EvFatal transformer) (emit (EvBuild transformer) s))
  end.

(** Modelled from the spec: [build_tokenizer] of llama2.cc, which is not
    part of the sources at hand. A missing or malformed tokenizer artifact
    is fatal: a diagnostic is reported and the task halts. *)
Definition build_tokenizer (w : World) (s : State) : State :=
  if tokenizer_artifact w
  then goto L54_BuildSampler (emit (EvBuild tokenizer) s)
  else goto Halted (emit (EvFatal tokenizer) (emit (EvBuild tokenizer) s)).

(** Lines 53-55: the seed is the kernel's tick count. *)
Definition build_sampler (w : World) (s : State) : State :=
  emit (EvBuild sampler) (set_rng_seed (tick_count w) s).

(** ** One statement of the task *)
Definition task_step (w : World) (s : State) : State :=
  match pc s with
  (* app_main, lines 89-97 *)
  | L89_GpioConfigureInterrupt => goto L95_LedStatusOn (GpioConfigureInterrupt s)
  | L95_LedStatusOn => goto L96_LedUserOff (LedSet kStatus true s)
  | L96_LedUserOff => goto L39_PrintLoading (LedSet kUser false s)
  (* LoadLlamaModel, lines 38-60 *)
  | L39_PrintLoading => goto L42_NewModelBuffer (printf MsgLoading s)
  | L42_NewModelBuffer => goto L43_BuildTransformer (emit (EvNew llama_model_buffer) s)
  | L43_BuildTransformer => build_transformer w s
  | L45_ClampSteps =>
      goto L49_NewTokenizerBuffer
        (set_steps (ResolveStepBudget (seq_len s) (steps s)) s)
  | L49_NewTokenizerBuffer =>
      goto L50_BuildTokenizer (emit (EvNew llama_tokenizer_buffer) s)
  | L50_BuildTokenizer => build_tokenizer w s
  | L54_BuildSampler => goto L59_PrintLoadingTook (build_sampler w s)
  | L59_PrintLoadingTook => goto L101_LedStatusOff (printf MsgLoadingTook s)
  (* app_main, loop body, lines 99-110 *)
  | L101_LedStatusOff => goto L102_LedUserOn (LedSet kStatus false s)
  | L102_LedUserOn => goto L103_TaskSuspend (LedSet kUser true s)
  | L103_TaskSuspend => goto L103_Parked (vTaskSuspend s)
  | L103_Parked => goto L107_LedStatusOn s
  | L107_LedStatusOn => goto L108_LedUserOff (LedSet kStatus true s)
  | L108_LedUserOff => goto L76_PrintGenerating (LedSet kUser false s)
  (* TellStory, lines 75-83 *)
  | L76_PrintGenerating => goto L79_GenerateCall (printf MsgGenerating s)
  | L79_GenerateCall =>
      goto L79_GenerateRunning
        (emit (EvGenerateCall kPrompt (steps s) (group_size s)) s)
  | L79_GenerateRunning => goto L82_PrintAveraged (emit EvGenerateReturn s)
  | L82_PrintAveraged => goto L101_LedStatusOff (printf MsgAveraged s)
  | Halted => s
  end.

(** ** Schedules

    [Tick]: the scheduler lets the task run one statement (nothing happens
    while it is suspended). [Edge]: an accepted (debounced) falling edge of
    the user button; the callback of line 91 runs in interrupt context. *)
Inductive Action := Tick | Edge.

Definition exec (w : World) (s : State) (a : Action) : State :=
  match a with
  | Tick => if suspended s then s else task_step w s
  | Edge => if isr_registered s then xTaskResumeFromISR s else s
  end.

Definition run (w : World) (sched : list Action) (s : State) : State :=
  fold_left (exec w) sched s.

(** The state at entry to [app_main]. The LEDs are in whatever state the
    board left them in. *)
Definition boot (status0 user0 : bool) : State :=
  {| pc := L89_GpioConfigureInterrupt; suspended := false;
     isr_registered := false; led_status := status0; led_user := user0;
     steps := kSteps; seq_len := 0; vocab_size := 0; group_size := 0;
     rng_seed := 0; trace := [] |}.

(** [LoadLlamaModel()] (lines 38-60) and [TellStory(kPrompt)] (lines 75-83)
    as whole calls: the statements of the body, run from its first one. *)
Definition LoadLlamaModel (w : World) (s : State) : State :=
  Nat.iter 8 (task_step w) (goto L39_PrintLoading s).


(** [UnloadLlamaModel()] (lines 63-72). [app_main] never reaches its call
    on line 113, so no program point leads here. *)
Definition UnloadLlamaModel (s : State) : State :=
  let s := printf MsgUnloading s in
  let s := emit (EvFree sampler) s in
  let s := emit (EvFree tokenizer) s in
  let s := emit (EvFree transformer) s in
  let s := emit (EvDelete llama_tokenizer_buffer) s in
  emit (EvDelete llama_model_buffer) s.

(** The events a call added to the trace. *)
Definition emitted_by (f : State -> State) (s : State) : list Event :=
  skipn (length (trace s)) (trace (f s)).

(** ** Phases of the controller

    The code keeps no state variable; the phase is where the task is. *)
Inductive ApplianceState := Initializing | Idle | Generating.

Definition phase (p : PC) : ApplianceState :=
  match p with
  | L89_GpioConfigureInterrupt | L95_LedStatusOn | L96_LedUserOff
  | L39_PrintLoading | L42_NewModelBuffer | L43_BuildTransformer
  | L45_ClampSteps | L49_NewTokenizerBuffer | L50_BuildTokenizer
  | L54_BuildSampler | L59_PrintLoadingTook | Halted => Initializing
  | L101_LedStatusOff | L102_LedUserOn | L103_TaskSuspend | L103_Parked => Idle
  | L107_LedStatusOn | L108_LedUserOff | L76_PrintGenerating
  | L79_GenerateCall | L79_GenerateRunning | L82_PrintAveraged => Generating
  end.

(** The indicator configuration of a phase: (status LED, user LED). *)
Definition indicator (p : ApplianceState) : bool * bool :=
  match p with
  | Initializing | Generating => (true, false)
  | Idle => (false, true)
  end.

(** Program points at which the phase's two [LedSet] calls are behind. *)
Definition writes_done (p : PC) : bool :=
  match p with
  | L89_GpioConfigureInterrupt | L95_LedStatusOn | L96_LedUserOff
  | L101_LedStatusOff | L102_LedUserOn
  | L107_LedStatusOn | L108_LedUserOff => false
  | _ => true
  end.

(** The phase whose main action an event belongs to. [LedSet] and the
    interrupt registration are entry actions; the events of
    [UnloadLlamaModel] belong to no phase. *)
Definition main_action (e : Event) : option ApplianceState :=
  match e with
  | EvPrintf MsgLoading | EvPrintf MsgLoadingTook
  | EvNew _ | EvBuild _ | EvFatal _ => Some Initializing
  | EvTaskSuspend => Some Idle
  | EvPrintf MsgGenerating | EvPrintf MsgAveraged
  | EvGenerateCall _ _ _ | EvGenerateReturn => Some Generating
  | _ => None
  end.

(** [since_writes p tr]: [tr] ends with the two indicator writes of phase
    [p] followed only by main-action events of [p]. *)
Definition since_writes (p : ApplianceState) (tr : list Event) : Prop :=
  exists before during,
    tr = before
         ++ [EvLedSet kStatus (fst (indicator p));
             EvLedSet kUser (snd (indicator p))]
         ++ during
    /\ Forall (fun e => main_action e = Some p) during.

(** The LEDs as an observer sees them after a trace. *)
Definition led_write (l : bool * bool) (e : Event) : bool * bool :=
  match e with
  | EvLedSet kStatus on => (on, snd l)
  | EvLedSet kUser on => (fst l, on)
  | _ => l
  end.

Definition leds_after (l0 : bool * bool) (tr : list Event) : bool * bool :=
  fold_left led_write tr l0.

(** ** Observers of schedules and traces *)

Definition is_tick (a : Action) : bool :=
  match a with Tick => true | Edge => false end.

Definition ticks (sched : list Action) : nat := length (filter is_tick sched).

Definition edges (sched : list Action) : nat :=
  length (filter (fun a => negb (is_tick a)) sched).

Definition is_generate_call (e : Event) : bool :=
  match e with EvGenerateCall _ _ _ => true | _ => false end.

(** Number of generation cycles run: calls of [generate]. *)
Definition generate_calls (tr : list Event) : nat :=
  length (filter is_generate_call tr).

(** The step budgets passed to [generate], in order. *)
Definition budgets (tr : list Event) : list Z :=
  flat_map (fun e => match e with EvGenerateCall _ n _ => [n] | _ => [] end) tr.

Definition builds (tr : list Event) : list EngineObj :=
  flat_map (fun e => match e with EvBuild o => [o] | _ => [] end) tr.

Definition frees (tr : list Event) : list EngineObj :=
  flat_map (fun e => match e with EvFree o => [o] | _ => [] end) tr.

Definition news (tr : list Event) : list Buffer :=
  flat_map (fun e => match e with EvNew b => [b] | _ => [] end) tr.

Definition deletes (tr : list Event) : list Buffer :=
  flat_map (fun e => match e with EvDelete b => [b] | _ => [] end) tr.

Definition fatals (tr : list Event) : list EngineObj :=
  flat_map (fun e => match e with EvFatal o => [o] | _ => [] end) tr.

(** The three resources of the engine: each engine object together with
    the buffer that backs it. *)
Inductive Resource := Weights | TokenizerTable | SamplerState.

Definition resource_of_obj (o : EngineObj) : Resource :=
  match o with
  | transformer => Weights
  | tokenizer => TokenizerTable
  | sampler => SamplerState
  end.

Definition resource_of_buffer (b : Buffer) : Resource :=
  match b with
  | llama_model_buffer => Weights
  | llama_tokenizer_buffer => TokenizerTable
  end.

Definition acquires (e : Event) : list Resource :=
  match e with
  | EvNew b => [resource_of_buffer b]
  | EvBuild o => [resource_of_obj o]
  | _ => []
  end.

Definition releases (e : Event) : list Resource :=
  match e with
  | EvDelete b => [resource_of_buffer b]
  | EvFree o => [resource_of_obj o]
  | _ => []
  end.

Definition Resource_eqb (a b : Resource) : bool :=
  match a, b with
  | Weights, Weights | TokenizerTable, TokenizerTable
  | SamplerState, SamplerState => true
  | _, _ => false
  end.

(** Order of first occurrence. *)
Fixpoint first_occurrences (l : list Resource) : list Resource :=
  match l with
  | [] => []
  | r :: l' => r :: filter (fun x => negb (Resource_eqb r x)) (first_occurrences l')
  end.

(** Order of last occurrence. *)
Definition last_occurrences (l : list Resource) : list Resource :=
  rev (first_occurrences (rev l)).

(** ** Measures on program points *)

(** Statements executed since boot, capped at 11 once loading is over. *)
Definition progress (p : PC) : nat :=
  match p with
  | L89_GpioConfigureInterrupt => 0
  | L95_LedStatusOn => 1
  | L96_LedUserOff => 2
  | L39_PrintLoading => 3
  | L42_NewModelBuffer => 4
  | L43_BuildTransformer => 5
  | L45_ClampSteps => 6
  | L49_NewTokenizerBuffer => 7
  | L50_BuildTokenizer => 8
  | L54_BuildSampler => 9
  | L59_PrintLoadingTook => 10
  | _ => 11
  end.

(** An upper bound on the statements left before the task parks in
    [vTaskSuspend] or halts. *)
Definition dist (p : PC) : nat :=
  match p with
  | Halted => 0
  | L103_TaskSuspend => 1
  | L102_LedUserOn => 2
  | L101_LedStatusOff => 3
  | L82_PrintAveraged => 4
  | L79_GenerateRunning => 5
  | L79_GenerateCall => 6
  | L76_PrintGenerating => 7
  | L108_LedUserOff => 8
  | L107_LedStatusOn => 9
  | L103_Parked => 10
  | L59_PrintLoadingTook => 4
  | L54_BuildSampler => 5
  | L50_BuildTokenizer => 6
  | L49_NewTokenizerBuffer => 7
  | L45_ClampSteps => 8
  | L43_BuildTransformer => 9
  | L42_NewModelBuffer => 10
  | L39_PrintLoading => 11
  | L96_LedUserOff => 12
  | L95_LedStatusOn => 13
  | L89_GpioConfigureInterrupt => 14
  end.

Definition rest (s : State) : nat := if suspended s then 0%nat else dist (pc s).

(** The task has come to rest: parked in [vTaskSuspend] or halted. *)
Definition parked (s : State) : Prop :=
  pc s = L103_Parked /\ suspended s = true.

Definition settled (s : State) : Prop := parked s \/ pc s = Halted.

(** A world in which both artifacts load. *)
Definition artifacts_ok (w : World) (h : Header) : Prop :=
  model_artifact w = Some h /\ tokenizer_artifact w = true.

(** ** Concrete inputs used below *)

Definition stories15M : Header :=
  {| h_seq_len := 256; h_vocab_size := 32000; h_group_size := 64 |}.

Definition good_world : World :=
  {| model_artifact := Some stories15M; tokenizer_artifact := true;
     tick_count := 1234 |}.

Definition no_tokenizer_world : World :=
  {| model_artifact := Some stories15M; tokenizer_artifact := false;
     tick_count := 1234 |}.

(** Boot, load, park (14 statements), one button press, and the wake-up:
    the task stands at line 107, at the entry of a generation cycle. *)
Definition first_cycle_entry : State :=
  run good_world (repeat Tick 14 ++ [Edge; Tick]) (boot false false).

(** Three presses while [generate] is running. *)
Definition three_presses : list Action :=
  [Tick; Tick; Tick; Tick; Edge; Edge; Edge].

(** ** Invariants of the reachable states *)

(** Scheduler facts: the task is suspended only inside [vTaskSuspend], and
    the callback is installed from line 95 on. *)
Definition wf (s : State) : Prop :=
  (suspended s = true -> pc s = L103_Parked) /\
  (pc s <> L89_GpioConfigureInterrupt -> isr_registered s = true).

(** LED facts: the phase's configuration once both writes are behind, and
    the first write's value between the two. *)
Definition led_inv (s : State) : Prop :=
  (writes_done (pc s) = true ->
   (led_status s, led_user s) = indicator (phase (pc s))) /\
  (pc s = L96_LedUserOff -> led_status s = true) /\
  (pc s = L102_LedUserOn -> led_status s = false) /\
  (pc s = L108_LedUserOff -> led_status s = true).

(** Program points of the loop body at which the task is running. *)
Definition in_cycle (p : PC) : bool :=
  match p with
  | L107_LedStatusOn | L108_LedUserOff | L76_PrintGenerating
  | L79_GenerateCall | L79_GenerateRunning | L82_PrintAveraged
  | L101_LedStatusOff | L102_LedUserOn | L103_TaskSuspend => true
  | _ => false
  end.

(** Scenario D in the words of the specification: from the entry of a
    generation cycle, presses delivered before the cycle's last statement
    has run are followed, once the task is left to run, by the current
    cycle and exactly one more. *)
Definition ScenarioD_as_specified : Prop :=
  forall (w : World) (s0 : State) (within : list Action),
    pc s0 = L107_LedStatusOn -> suspended s0 = false ->
    isr_registered s0 = true ->
    (ticks within <= 5)%nat -> (1 <= edges within)%nat ->
    exists k0 : nat, forall k : nat, (k0 <= k)%nat ->
      generate_calls (trace (run w (within ++ repeat Tick k) s0))
      = (2 + generate_calls (trace s0))%nat.

(** Events that only the loop of lines 99-110 produces. *)
Definition is_loop_event (e : Event) : bool :=
  match e with
  | EvLedSet kStatus false | EvLedSet kUser true | EvTaskSuspend
  | EvPrintf MsgGenerating | EvPrintf MsgAveraged
  | EvGenerateCall _ _ _ | EvGenerateReturn => true
  | _ => false
  end.

(** The engine objects built so far, by program point. *)
Definition builds_at (w : World) (p : PC) : list EngineObj :=
  match p with
  | L89_GpioConfigureInterrupt | L95_LedStatusOn | L96_LedUserOff
  | L39_PrintLoading | L42_NewModelBuffer | L43_BuildTransformer => []
  | L45_ClampSteps | L49_NewTokenizerBuffer | L50_BuildTokenizer =>
      [transformer]
  | L54_BuildSampler => [transformer; tokenizer]
  | Halted =>
      match model_artifact w with
      | None => [transformer]
      | Some _ => [transformer; tokenizer]
      end
  | _ => [transformer; tokenizer; sampler]
  end.

Definition build_inv (w : World) (s : State) : Prop :=
  builds (trace s) = builds_at w (pc s) /\
  frees (trace s) = [] /\ deletes (trace s) = [].

(** What the program point says about the artifacts. *)
Definition world_inv (w : World) (s : State) : Prop :=
  (pc s = Halted -> model_artifact w = None \/ tokenizer_artifact w = false) /\
  (pc s <> Halted ->
   ((6 <= progress (pc s))%nat -> model_artifact w <> None) /\
   ((9 <= progress (pc s))%nat -> tokenizer_artifact w = true)).

(** The fatal diagnostic is reported exactly when the task halts; until
    the load has returned, nothing of the loop has happened. *)
Definition fatal_inv (s : State) : Prop :=
  (pc s = Halted -> exists o, fatals (trace s) = [o]) /\
  (pc s <> Halted -> fatals (trace s) = []) /\
  (phase (pc s) = Initializing ->
   Forall (fun e => is_loop_event e = false) (trace s)).

(** The step budget along a run, for a model whose header is [h]: the
    configured value until line 45 has run, its clamp from then on, and
    nothing else ever passed to [generate]. *)
Definition budget_inv (h : Header) (s : State) : Prop :=
  ((progress (pc s) <= 6)%nat -> steps s = kSteps) /\
  ((6 <= progress (pc s))%nat -> seq_len s = h_seq_len h) /\
  ((7 <= progress (pc s))%nat ->
   steps s = ResolveStepBudget (h_seq_len h) kSteps) /\
  Forall (eq (ResolveStepBudget (h_seq_len h) kSteps)) (budgets (trace s)).


(** [ordered tr]: every main-action event of [tr] comes after the two
    indicator writes of its phase, with only events of that phase's main
    action in between. *)
Definition ordered (tr : list Event) : Prop :=
  forall pre e post p,
    tr = pre ++ e :: post -> main_action e = Some p -> since_writes p pre.

Definition order_inv (s : State) : Prop :=
  ordered (trace s) /\
  (writes_done (pc s) = true -> since_writes (phase (pc s)) (trace s)) /\
  (pc s = L96_LedUserOff -> exists tr, trace s = tr ++ [EvLedSet kStatus true]) /\
  (pc s = L102_LedUserOn -> exists tr, trace s = tr ++ [EvLedSet kStatus false]) /\
  (pc s = L108_LedUserOff -> exists tr, trace s = tr ++ [EvLedSet kStatus true]).

(** Boot with the user LED lit, load, park, one press, and the run up to
    the call of [generate]. *)
Definition trace_to_first_generate : list Event :=
  trace (run good_world (repeat Tick 14 ++ Edge :: repeat Tick 5)
           (boot false true)).

(** ** Further invariants of the reachable states *)

(** A generation the task owes: it has been woken from [vTaskSuspend] and
    has not called [generate] yet. *)
Definition owed (s : State) : nat :=
  match pc s with
  | L103_Parked => if suspended s then 0%nat else 1%nat
  | L107_LedStatusOn | L108_LedUserOff
  | L76_PrintGenerating | L79_GenerateCall => 1%nat
  | _ => 0%nat
  end.

(** The LEDs at the four [LedSet] statements of the loop. *)
Definition led_loop_inv (s : State) : Prop :=
  (pc s = L101_LedStatusOff -> led_status s = true /\ led_user s = false) /\
  (pc s = L102_LedUserOn -> led_status s = false /\ led_user s = false) /\
  (pc s = L107_LedStatusOn -> led_status s = false /\ led_user s = true) /\
  (pc s = L108_LedUserOff -> led_status s = true /\ led_user s = true).

(** What a call of [generate] is given for a model whose header is [h]. *)
Definition call_ok (h : Header) (e : Event) : Prop :=
  match e with
  | EvGenerateCall p n g =>
      p = kPrompt /\ n = ResolveStepBudget (h_seq_len h) kSteps
      /\ g = h_group_size h
  | _ => True
  end.

(** The engine globals once [build_transformer] and [build_sampler] have
    filled them in. *)
Definition engine_inv (w : World) (h : Header) (s : State) : Prop :=
  ((6 <= progress (pc s))%nat ->
   seq_len s = h_seq_len h /\ vocab_size s = h_vocab_size h
   /\ group_size s = h_group_size h) /\
  ((10 <= progress (pc s))%nat -> pc s <> Halted ->
   rng_seed s = tick_count w) /\
  Forall (call_ok h) (trace s).

Definition is_gpio_config (e : Event) : bool :=
  match e with EvGpioConfigureInterrupt _ => true | _ => false end.

(** The interrupt is configured by the first statement and never again. *)
Definition gpio_inv (s : State) : Prop :=
  (pc s = L89_GpioConfigureInterrupt ->
   trace s = [] /\ isr_registered s = false) /\
  (pc s <> L89_GpioConfigureInterrupt ->
   exists later,
     trace s = EvGpioConfigureInterrupt kButtonDebounceUs :: later
     /\ Forall (fun e => is_gpio_config e = false) later).

(** The events of a boot that ends in Idle. *)
Definition boot_events : list Event :=
  [EvGpioConfigureInterrupt kButtonDebounceUs;
   EvLedSet kStatus true; EvLedSet kUser false;
   EvPrintf MsgLoading; EvNew llama_model_buffer; EvBuild transformer;
   EvNew llama_tokenizer_buffer; EvBuild tokenizer; EvBuild sampler;
   EvPrintf MsgLoadingTook;
   EvLedSet kStatus false; EvLedSet kUser true; EvTaskSuspend].

(** The events of one pass through the loop body, from the wake-up to the
    next [vTaskSuspend]. *)
Definition cycle_events (s : State) : list Event :=
  [EvLedSet kStatus true; EvLedSet kUser false; EvPrintf MsgGenerating;
   EvGenerateCall kPrompt (steps s) (group_size s); EvGenerateReturn;
   EvPrintf MsgAveraged; EvLedSet kStatus false; EvLedSet kUser true;
   EvTaskSuspend].

(** Presses that arrive while the task is suspended, along a run. *)
Fixpoint wakes (w : World) (sched : list Action) (s : State) : nat :=
  match sched with
  | [] => 0%nat
  | a :: l =>
      ((match a with
        | Edge => if suspended s then 1 else 0
        | Tick => 0
        end) + wakes w l (exec w s a))%nat
  end.

(** The state in which a boot with header [h] parks. *)
Definition idle_after_boot (w : World) (h : Header) : State :=
  {| pc := L103_Parked; suspended := true; isr_registered := true;
     led_status := false; led_user := true;
     steps := ResolveStepBudget (h_seq_len h) kSteps;
     seq_len := h_seq_len h; vocab_size := h_vocab_size h;
     group_size := h_group_size h; rng_seed := tick_count w;
     trace := boot_events |}.

(** The state in which the task parks after one cycle started from [s]:
    the engine globals are those of [s]. *)
Definition after_cycle (s : State) : State :=
  {| pc := L103_Parked; suspended := true;
     isr_registered := isr_registered s;
     led_status := false; led_user := true;
     steps := steps s; seq_len := seq_len s; vocab_size := vocab_size s;
     group_size := group_size s; rng_seed := rng_seed s;
     trace := trace s ++ cycle_events s |}.

(** [n] presses, each followed by the ten statements of a cycle. *)
Definition press_and_wait (n : nat) : list Action :=
  concat (repeat (Edge :: repeat Tick 10) n).

(** * Properties *)

(** ** Step budget *)

Lemma ResolveStepBudget_cases (M r : Z) :
  (r = 0 \/ r > M) /\ ResolveStepBudget M r = M \/
  (r <> 0 /\ r <= M) /\ ResolveStepBudget M r = r.
Proof.
  unfold ResolveStepBudget.
  destruct (Z.eqb_spec r 0) as [E | E]; simpl.
  - left; split; [left; exact E | reflexivity].
  - rewrite Z.gtb_ltb. destruct (Z.ltb_spec M r) as [L | L].
    + left; split; [right; lia | reflexivity].
    + right; split; [split; [exact E | lia] | reflexivity].
Qed.

(** C3. The step-budget resolution of lines 45-47 returns the model
    maximum [M] when the request [r] is zero or exceeds [M], and [r]
    itself otherwise; it is what the statement at line 45 stores in
    [steps]; with [M = 256], requests of 0 and of 1000 both resolve to
    256. *)
Theorem ResolveStepBudget_clamp (M r : Z) :
  ((r = 0 \/ r > M) -> ResolveStepBudget M r = M) /\
  (~ (r = 0 \/ r > M) -> ResolveStepBudget M r = r) /\
  (forall w s, pc s = L45_ClampSteps ->
     steps (task_step w s) = ResolveStepBudget (seq_len s) (steps s)) /\
  ResolveStepBudget 256 0 = 256 /\
  ResolveStepBudget 256 1000 = 256.
Proof.
  repeat split.
  - intros H. destruct (ResolveStepBudget_cases M r) as [[_ E] | [[H0 H1] _]];
      [exact E | lia].
  - intros H. destruct (ResolveStepBudget_cases M r) as [[H0 _] | [_ E]];
      [contradiction | exact E].
  - intros w s Hpc. unfold task_step. rewrite Hpc. reflexivity.
Qed.

Lemma ResolveStepBudget_clamp_witness :
  (0 = 0 \/ 0 > 256) /\ ResolveStepBudget 256 0 = 256.
Proof.
  split; [left; reflexivity |].
  apply (proj1 (ResolveStepBudget_clamp 256 0)). left; reflexivity.
Defined.

(** C4, as the code has it. For a model maximum [M >= 1], a request
    [r >= 0] resolves into [[1, M]]; a negative request passes the test of
    line 45 and is kept as it is. *)
Theorem ResolveStepBudget_range (M r : Z) :
  1 <= M ->
  (0 <= r -> 1 <= ResolveStepBudget M r <= M) /\
  (r < 0 -> ResolveStepBudget M r = r).
Proof.
  intros HM.
  destruct (ResolveStepBudget_cases M r) as [[H E] | [[H0 H1] E]];
    rewrite E; split; intros; lia.
Qed.

Lemma ResolveStepBudget_range_witness :
  1 <= 256 /\ 0 <= 300 /\ 1 <= ResolveStepBudget 256 300 <= 256.
Proof.
  split; [lia |]. split; [lia |].
  apply (ResolveStepBudget_range 256 300); lia.
Defined.

(** A negative [int] is a request the clamp lets through: the result is
    outside [[1, M]]. *)
Lemma ResolveStepBudget_negative_not_clamped :
  is_int (-5) /\ 1 <= 256 /\
  ResolveStepBudget 256 (-5) = -5 /\
  ~ (1 <= ResolveStepBudget 256 (-5) <= 256).
Proof.
  unfold is_int. repeat split; try lia; try reflexivity.
  vm_compute. intros [H _]. apply H. reflexivity.
Qed.

(** ** Lists, schedules and trace observers *)

Lemma Forall_snoc {A : Type} (P : A -> Prop) (l : list A) (x : A) :
  Forall P l -> P x -> Forall P (l ++ [x]).
Proof.
  intros Hl Hx. apply Forall_app. split; [exact Hl |].
  constructor; [exact Hx | constructor].
Qed.

Lemma skipn_length_app {A : Type} (l1 l2 : list A) :
  skipn (length l1) (l1 ++ l2) = l2.
Proof.
  rewrite skipn_app, skipn_all, Nat.sub_diag. reflexivity.
Qed.

Lemma snoc_split {A : Type} (tr pre post : list A) (e' e : A) :
  tr ++ [e'] = pre ++ e :: post ->
  (post = [] /\ pre = tr /\ e = e') \/
  (exists post', post = post' ++ [e'] /\ tr = pre ++ e :: post').
Proof.
  induction post as [| x post' _] using rev_ind; intros H.
  - left. apply app_inj_tail in H. destruct H as [H1 H2].
    repeat split; congruence.
  - right. exists post'.
    rewrite app_comm_cons, app_assoc in H.
    apply app_inj_tail in H. destruct H as [H1 H2].
    subst. split; reflexivity.
Qed.

Lemma ticks_snoc (l : list Action) (a : Action) :
  ticks (l ++ [a]) = (ticks l + (if is_tick a then 1 else 0))%nat.
Proof.
  unfold ticks. rewrite filter_app, length_app. simpl.
  destruct (is_tick a); reflexivity.
Qed.

Lemma ticks_app (l1 l2 : list Action) :
  ticks (l1 ++ l2) = (ticks l1 + ticks l2)%nat.
Proof. unfold ticks. rewrite filter_app, length_app. reflexivity. Qed.

Lemma ticks_repeat_Tick (k : nat) : ticks (repeat Tick k) = k.
Proof.
  unfold ticks. induction k as [| k IH]; simpl; [reflexivity |].
  f_equal. exact IH.
Qed.

Lemma generate_calls_app (t1 t2 : list Event) :
  generate_calls (t1 ++ t2) = (generate_calls t1 + generate_calls t2)%nat.
Proof. unfold generate_calls. rewrite filter_app, length_app. reflexivity. Qed.

Lemma budgets_snoc (tr : list Event) (e : Event) :
  budgets (tr ++ [e]) = budgets tr ++ budgets [e].
Proof. apply flat_map_app. Qed.

Lemma builds_snoc (tr : list Event) (e : Event) :
  builds (tr ++ [e]) = builds tr ++ builds [e].
Proof. apply flat_map_app. Qed.

Lemma frees_snoc (tr : list Event) (e : Event) :
  frees (tr ++ [e]) = frees tr ++ frees [e].
Proof. apply flat_map_app. Qed.

Lemma deletes_snoc (tr : list Event) (e : Event) :
  deletes (tr ++ [e]) = deletes tr ++ deletes [e].
Proof. apply flat_map_app. Qed.

Lemma fatals_snoc (tr : list Event) (e : Event) :
  fatals (tr ++ [e]) = fatals tr ++ fatals [e].
Proof. apply flat_map_app. Qed.

(** ** Facts about states and traces *)

Lemma wf_boot (b0 u0 : bool) : wf (boot b0 u0).
Proof. split; simpl; [discriminate | congruence]. Qed.

Lemma led_inv_boot (b0 u0 : bool) : led_inv (boot b0 u0).
Proof. repeat split; simpl; discriminate. Qed.

Lemma running_outside_Idle (s : State) :
  wf s -> phase (pc s) <> Idle -> suspended s = false.
Proof.
  intros [Hs _] Hph. destruct (suspended s); [| reflexivity].
  rewrite Hs in Hph by reflexivity. contradiction Hph. reflexivity.
Qed.

Lemma rest_zero_settled (s : State) :
  wf s -> rest s = 0%nat -> settled s.
Proof.
  intros [Hs _] Hr. unfold rest in Hr.
  destruct (suspended s) eqn:Hsusp.
  - left. split; [apply Hs; reflexivity | exact Hsusp].
  - right. destruct (pc s); simpl in Hr; try discriminate. reflexivity.
Qed.

Lemma rest_bound (s : State) : (rest s <= 14)%nat.
Proof.
  unfold rest. destruct (suspended s); [lia |].
  destruct (pc s); simpl; lia.
Qed.

Lemma ordered_nil : ordered [].
Proof. intros pre e post p H. destruct pre; discriminate H. Qed.

Lemma ordered_snoc_none (tr : list Event) (e' : Event) :
  ordered tr -> main_action e' = None -> ordered (tr ++ [e']).
Proof.
  intros Ho Hn pre e post p H Hm.
  destruct (snoc_split _ _ _ _ _ H) as [(_ & _ & E) | (post' & _ & E)].
  - congruence.
  - exact (Ho pre e post' p E Hm).
Qed.

Lemma ordered_snoc_some (tr : list Event) (e' : Event) (q : ApplianceState) :
  ordered tr -> main_action e' = Some q -> since_writes q tr ->
  ordered (tr ++ [e']).
Proof.
  intros Ho Hq Hs pre e post p H Hm.
  destruct (snoc_split _ _ _ _ _ H) as [(_ & E1 & E2) | (post' & _ & E)].
  - subst. rewrite Hq in Hm. injection Hm as <-. exact Hs.
  - exact (Ho pre e post' p E Hm).
Qed.

Lemma since_writes_snoc (p : ApplianceState) (tr : list Event) (e : Event) :
  since_writes p tr -> main_action e = Some p -> since_writes p (tr ++ [e]).
Proof.
  intros (before & during & E & F) Hm.
  exists before, (during ++ [e]). split.
  - rewrite E, <- !app_assoc. reflexivity.
  - apply Forall_snoc; assumption.
Qed.

Lemma since_writes_start (p : ApplianceState) (tr : list Event) :
  since_writes p
    ((tr ++ [EvLedSet kStatus (fst (indicator p))])
     ++ [EvLedSet kUser (snd (indicator p))]).
Proof.
  exists tr, []. split; [| constructor].
  rewrite <- !app_assoc. reflexivity.
Qed.

Lemma main_actions_keep_leds
    (p : ApplianceState) (during : list Event) :
  Forall (fun e => main_action e = Some p) during ->
  forall l, fold_left led_write during l = l.
Proof.
  induction 1 as [| e during He _ IH]; intros l; [reflexivity |].
  cbn [fold_left]. rewrite <- (IH l) at 2. f_equal.
  destruct e as [| [] | | | | | | | | |]; simpl in He;
    try discriminate He; reflexivity.
Qed.

Lemma leds_after_since_writes
    (p : ApplianceState) (tr : list Event) (l0 : bool * bool) :
  since_writes p tr -> leds_after l0 tr = indicator p.
Proof.
  intros (before & during & E & F). subst tr. unfold leds_after.
  rewrite !fold_left_app, (main_actions_keep_leds p during F).
  cbn [fold_left led_write fst snd].
  symmetry. apply surjective_pairing.
Qed.

(** ** Proof steps shared by the invariants *)

(** Case analysis on one action: a tick of a suspended task, a tick at each
    program point (with both outcomes of the two fallible builds), an edge
    with the callback installed on a suspended or a running task, and an
    edge before the callback is installed. *)
Ltac exec_cases w s a :=
  destruct a; unfold exec;
  [ destruct (suspended s) eqn:Hsusp;
    [ | unfold task_step; destruct (pc s) eqn:Hpc;
        unfold build_transformer, build_tokenizer;
        try match goal with
            | |- context [model_artifact w] =>
                destruct (model_artifact w) eqn:Hmodel
            | |- context [tokenizer_artifact w] =>
                destruct (tokenizer_artifact w) eqn:Htok
            end ]
  | destruct (isr_registered s) eqn:Hisr;
    [ unfold xTaskResumeFromISR; destruct (suspended s) eqn:Hsusp | ] ].

Ltac order_goal :=
  lazymatch goal with
  | |- ordered (_ ++ [_]) =>
      first [ apply ordered_snoc_none; [order_goal | reflexivity]
            | eapply ordered_snoc_some; [order_goal | reflexivity | order_goal] ]
  | |- ordered _ => assumption
  | |- since_writes _ (_ ++ [EvLedSet kUser _]) =>
      match goal with
      | E : trace _ = _ ++ [EvLedSet kStatus _] |- _ => rewrite E
      end;
      first [ apply (since_writes_start Initializing)
            | apply (since_writes_start Idle)
            | apply (since_writes_start Generating) ]
  | |- since_writes _ (_ ++ [_]) =>
      apply since_writes_snoc; [order_goal | reflexivity]
  | |- since_writes _ _ => assumption
  | |- exists _, _ ++ [_] = _ ++ [_] => eexists; reflexivity
  end.

(** ** The machine in a fixed world *)

Section Machine.

Variable w : World.

(** *** Schedules *)

Lemma run_app (l1 l2 : list Action) (s : State) :
  run w (l1 ++ l2) s = run w l2 (run w l1 s).
Proof. apply fold_left_app. Qed.

Lemma run_snoc (l : list Action) (a : Action) (s : State) :
  run w (l ++ [a]) s = exec w (run w l s) a.
Proof. rewrite run_app. reflexivity. Qed.

Lemma run_cons (a : Action) (l : list Action) (s : State) :
  run w (a :: l) s = run w l (exec w s a).
Proof. reflexivity. Qed.

(** Induction over the states a schedule leads to. *)
Lemma run_invariant (P : State -> Prop) :
  (forall s a, P s -> P (exec w s a)) ->
  forall sched s, P s -> P (run w sched s).
Proof.
  intros Hstep sched; induction sched as [| a sched IH]; intros s Hs.
  - exact Hs.
  - rewrite run_cons. apply IH, Hstep, Hs.
Qed.

(** *** Scheduler and LED invariants *)

Lemma wf_exec (s : State) (a : Action) :
  wf s -> wf (exec w s a).
Proof.
  intros H. exec_cases w s a; try exact H; destruct H as [Hs Hi];
    split; cbn; intros; try discriminate; try reflexivity;
    try congruence; try (apply Hi; congruence).
Qed.

Lemma wf_run (sched : list Action) (s : State) :
  wf s -> wf (run w sched s).
Proof. apply run_invariant. intros s' a. apply wf_exec. Qed.

Lemma led_inv_exec (s : State) (a : Action) :
  led_inv s -> led_inv (exec w s a).
Proof.
  intros H. exec_cases w s a; try exact H;
    destruct H as (Hd & H96 & H102 & H108);
    rewrite ?Hpc in *; cbn in *;
    repeat split; intros; cbn in *; try discriminate; try reflexivity;
    try (rewrite H96 by reflexivity; reflexivity);
    try (rewrite H102 by reflexivity; reflexivity);
    try (rewrite H108 by reflexivity; reflexivity);
    try (apply Hd; reflexivity).
Qed.

Lemma led_inv_run (sched : list Action) (s : State) :
  led_inv s -> led_inv (run w sched s).
Proof. apply run_invariant. intros s' a. apply led_inv_exec. Qed.

(** *** The wake primitive and the wait point *)

Lemma edge_unsuspended (s : State) :
  suspended s = false -> exec w s Edge = s.
Proof.
  intros H. unfold exec, xTaskResumeFromISR. rewrite H.
  destruct (isr_registered s); reflexivity.
Qed.

Lemma edges_unsuspended (n : nat) (s : State) :
  suspended s = false -> run w (repeat Edge n) s = s.
Proof.
  intros H. induction n as [| n IH]; [reflexivity |].
  simpl repeat. rewrite run_cons, edge_unsuspended by exact H. exact IH.
Qed.

Lemma pc_edge (s : State) : pc (exec w s Edge) = pc s.
Proof.
  unfold exec, xTaskResumeFromISR.
  destruct (isr_registered s), (suspended s); reflexivity.
Qed.

Lemma settled_tick (s : State) :
  wf s -> settled s -> exec w s Tick = s.
Proof.
  intros [Hs _] [[_ Hp] | Hh]; unfold exec.
  - rewrite Hp. reflexivity.
  - destruct (suspended s).
    + reflexivity.
    + unfold task_step. rewrite Hh. reflexivity.
Qed.

Lemma settled_ticks (k : nat) (s : State) :
  wf s -> settled s -> run w (repeat Tick k) s = s.
Proof.
  intros Hw Hs. induction k as [| k IH]; [reflexivity |].
  simpl repeat. rewrite run_cons, settled_tick by assumption. exact IH.
Qed.

Lemma parked_stays (k : nat) (s : State) :
  parked s -> run w (repeat Tick k) s = s.
Proof.
  intros [_ Hs]. induction k as [| k IH]; [reflexivity |].
  simpl repeat. rewrite run_cons. unfold exec. rewrite Hs. exact IH.
Qed.

Lemma halted_absorbs (sched : list Action) (s : State) :
  wf s -> pc s = Halted -> run w sched s = s.
Proof.
  intros [Hs _] Hh.
  assert (Hsusp : suspended s = false).
  { destruct (suspended s); [| reflexivity].
    rewrite Hs in Hh by reflexivity. discriminate. }
  induction sched as [| a l IH]; [reflexivity |].
  rewrite run_cons. destruct a.
  - unfold exec. rewrite Hsusp. unfold task_step. rewrite Hh. exact IH.
  - rewrite edge_unsuspended by exact Hsusp. exact IH.
Qed.

Lemma rest_tick (s : State) :
  (rest (exec w s Tick) <= pred (rest s))%nat.
Proof.
  unfold rest at 2. unfold exec.
  destruct (suspended s) eqn:Hsusp.
  - unfold rest. rewrite Hsusp. apply Nat.le_refl.
  - unfold task_step, rest. destruct (pc s) eqn:Hpc;
      unfold build_transformer, build_tokenizer;
      try match goal with
          | |- context [model_artifact w] => destruct (model_artifact w)
          | |- context [tokenizer_artifact w] => destruct (tokenizer_artifact w)
          end;
      cbn; rewrite ?Hsusp, ?Hpc; cbn; lia.
Qed.

(** Left to run, the task comes to rest within [rest s] statements. *)
Lemma settles (k : nat) :
  forall s, wf s -> (rest s <= k)%nat -> settled (run w (repeat Tick k) s).
Proof.
  induction k as [| k IH]; intros s Hw Hr.
  - change (settled s). apply rest_zero_settled; [exact Hw | lia].
  - simpl repeat. rewrite run_cons. apply IH.
    + apply wf_exec, Hw.
    + pose proof (rest_tick s). lia.
Qed.

Lemma cycle_step (s : State) :
  in_cycle (pc s) = true -> suspended s = false -> (2 <= dist (pc s))%nat ->
  let s' := exec w s Tick in
  in_cycle (pc s') = true /\ suspended s' = false /\
  S (dist (pc s')) = dist (pc s).
Proof.
  intros Hc Hsusp Hd. unfold exec. rewrite Hsusp. unfold task_step.
  destruct (pc s); simpl in Hc, Hd; try discriminate; try lia;
    cbn; rewrite ?Hsusp; repeat split.
Qed.

(** Inside the loop body, presses that arrive before [vTaskSuspend] is
    called leave the run exactly as it is without them. *)
Lemma edges_erased_in_cycle (within : list Action) :
  forall s,
    in_cycle (pc s) = true -> suspended s = false ->
    (ticks within < dist (pc s))%nat ->
    run w within s = run w (repeat Tick (ticks within)) s.
Proof.
  induction within as [| a l IH]; intros s Hc Hsusp Hd.
  - reflexivity.
  - destruct a.
    + change (ticks (Tick :: l)) with (S (ticks l)) in *.
      simpl repeat. rewrite !run_cons.
      destruct (cycle_step s Hc Hsusp) as (Hc' & Hs' & Hd'); [lia |].
      apply IH; [exact Hc' | exact Hs' | lia].
    + change (ticks (Edge :: l)) with (ticks l) in *.
      rewrite run_cons, edge_unsuspended by exact Hsusp.
      apply IH; assumption.
Qed.

Lemma cycle_from_entry (s0 : State) :
  pc s0 = L107_LedStatusOn -> suspended s0 = false ->
  let s9 := run w (repeat Tick 9) s0 in
  parked s9 /\
  trace s9 = trace s0 ++
    [EvLedSet kStatus true; EvLedSet kUser false; EvPrintf MsgGenerating;
     EvGenerateCall kPrompt (steps s0) (group_size s0); EvGenerateReturn;
     EvPrintf MsgAveraged; EvLedSet kStatus false; EvLedSet kUser true;
     EvTaskSuspend].
Proof.
  intros Hpc Hsusp. destruct s0; simpl in Hpc, Hsusp; subst.
  cbv -[app]. split; [split; reflexivity |].
  rewrite <- !app_assoc. reflexivity.
Qed.

(** The run of a whole cycle with presses in it. *)
Lemma cycle_ignores_edges (s0 : State) (within : list Action) (k : nat) :
  pc s0 = L107_LedStatusOn -> suspended s0 = false ->
  (ticks within <= 8)%nat -> (9 <= ticks within + k)%nat ->
  run w (within ++ repeat Tick k) s0 = run w (repeat Tick 9) s0.
Proof.
  intros Hpc Hsusp Hle Hge.
  rewrite run_app, (edges_erased_in_cycle within s0);
    [| rewrite Hpc; reflexivity | exact Hsusp | rewrite Hpc; simpl; lia].
  rewrite <- run_app, <- repeat_app.
  replace (ticks within + k)%nat with (9 + (ticks within + k - 9))%nat by lia.
  rewrite repeat_app, run_app.
  apply parked_stays. apply cycle_from_entry; assumption.
Qed.

Lemma generate_calls_cycle (s0 : State) :
  pc s0 = L107_LedStatusOn -> suspended s0 = false ->
  generate_calls (trace (run w (repeat Tick 9) s0))
  = S (generate_calls (trace s0)).
Proof.
  intros Hpc Hsusp.
  destruct (cycle_from_entry s0 Hpc Hsusp) as [_ Ht].
  rewrite Ht, generate_calls_app.
  generalize (generate_calls (trace s0)); intros g. cbn. lia.
Qed.

(** *** Loading *)

Lemma world_inv_exec (s : State) (a : Action) :
  world_inv w s -> world_inv w (exec w s a).
Proof.
  intros H. exec_cases w s a; try exact H;
    destruct H as (Hh & Hn); rewrite Hpc in Hh, Hn;
    (split; cbn; [intros Hx; try discriminate Hx | intros Hx]);
    try (left; exact Hmodel); try (right; exact Htok);
    try (apply Hh; reflexivity);
    try (contradiction Hx; reflexivity);
    try (assert (Hn' := Hn ltac:(discriminate)); cbn in Hn';
         destruct Hn' as [Hn1 Hn2]; split; intros Hp;
         try (exfalso; lia); try (apply Hn1; lia); try (apply Hn2; lia);
         try congruence).
Qed.

Lemma world_inv_run (b0 u0 : bool) (sched : list Action) :
  world_inv w (run w sched (boot b0 u0)).
Proof.
  apply run_invariant; [intros s a; apply world_inv_exec |].
  split; cbn; [discriminate | intros _; split; intros; exfalso; lia].
Qed.

Lemma model_present (s : State) :
  world_inv w s -> pc s <> Halted -> (6 <= progress (pc s))%nat ->
  exists h, model_artifact w = Some h.
Proof.
  intros [_ Hn] Hh Hp. destruct (Hn Hh) as [Hm _]. specialize (Hm Hp).
  destruct (model_artifact w) as [h |]; [exists h; reflexivity |].
  contradiction Hm. reflexivity.
Qed.

Lemma build_inv_exec (s : State) (a : Action) :
  world_inv w s -> build_inv w s -> build_inv w (exec w s a).
Proof.
  intros Hw H. exec_cases w s a; try exact H;
    destruct H as (Hb & Hf & Hd); rewrite Hpc in Hb;
    unfold build_inv;
    cbn [pc trace goto emit LedSet printf GpioConfigureInterrupt
         vTaskSuspend build_sampler set_led set_isr_registered
         set_suspended set_steps set_header set_rng_seed];
    repeat split;
    rewrite ?builds_snoc, ?frees_snoc, ?deletes_snoc, ?Hb, ?Hf, ?Hd;
    cbn; rewrite ?Hmodel; try reflexivity.
  destruct (model_present s Hw) as [h Hm];
    [rewrite Hpc; discriminate | rewrite Hpc; simpl; lia |].
  rewrite Hm. reflexivity.
Qed.

Lemma build_inv_run (b0 u0 : bool) (sched : list Action) :
  build_inv w (run w sched (boot b0 u0)).
Proof.
  apply (run_invariant (fun s => world_inv w s /\ build_inv w s)).
  - intros s a [Hw Hb]. split;
      [apply world_inv_exec, Hw | apply build_inv_exec; assumption].
  - split; [| repeat split].
    split; cbn; [discriminate | intros _; split; intros; exfalso; lia].
Qed.

Lemma progress_tick (s : State) :
  wf s ->
  (Nat.min (S (progress (pc s))) 11 <= progress (pc (exec w s Tick)))%nat.
Proof.
  intros [Hs _]. unfold exec. destruct (suspended s) eqn:Hsusp.
  - rewrite Hs by reflexivity. simpl. lia.
  - unfold task_step. destruct (pc s) eqn:Hpc;
      unfold build_transformer, build_tokenizer;
      try match goal with
          | |- context [model_artifact w] => destruct (model_artifact w)
          | |- context [tokenizer_artifact w] => destruct (tokenizer_artifact w)
          end;
      cbn; rewrite ?Hpc; cbn; lia.
Qed.

(** Every statement executed during loading advances the task. *)
Lemma progress_ticks (b0 u0 : bool) (sched : list Action) :
  (Nat.min (ticks sched) 11 <= progress (pc (run w sched (boot b0 u0))))%nat.
Proof.
  induction sched as [| a l IH] using rev_ind.
  - simpl. lia.
  - rewrite run_snoc, ticks_snoc. destruct a; cbn [is_tick]; cbv iota.
    + pose proof (progress_tick (run w l (boot b0 u0))
                    (wf_run l _ (wf_boot b0 u0))).
      lia.
    + rewrite pc_edge. lia.
Qed.

Lemma fatal_inv_exec (s : State) (a : Action) :
  fatal_inv s -> fatal_inv (exec w s a).
Proof.
  intros H. exec_cases w s a; try exact H;
    destruct H as (Hh & Hn & Hl); rewrite Hpc in Hh, Hn, Hl;
    unfold fatal_inv;
    cbn [pc trace goto emit LedSet printf GpioConfigureInterrupt
         vTaskSuspend build_sampler set_led set_isr_registered
         set_suspended set_steps set_header set_rng_seed phase];
    (split; [| split]); intros Hx; try discriminate Hx;
    try (contradiction Hx; reflexivity);
    rewrite ?fatals_snoc, ?Hn by discriminate;
    try (eexists; reflexivity);
    try reflexivity;
    try (apply Hh; reflexivity);
    try (apply Hn; discriminate);
    repeat (apply Forall_snoc; [| reflexivity]);
    try (apply Hl; reflexivity).
Qed.

Lemma fatal_inv_run (b0 u0 : bool) (sched : list Action) :
  fatal_inv (run w sched (boot b0 u0)).
Proof.
  apply run_invariant; [intros s a; apply fatal_inv_exec |].
  split; [discriminate |]. split; [reflexivity | constructor].
Qed.

(** *** The step budget along a run *)


Lemma budget_inv_exec (h : Header) (s : State) (a : Action) :
  model_artifact w = Some h ->
  budget_inv h s -> budget_inv h (exec w s a).
Proof.
  intros Hm H. exec_cases w s a; try exact H;
    try discriminate Hm; try (injection Hm as Hm; subst);
    destruct H as (Ha & Hb & Hc & Hd); rewrite Hpc in Ha, Hb, Hc;
    cbn [progress] in Ha, Hb, Hc;
    unfold budget_inv;
    cbn [pc trace steps seq_len goto emit LedSet printf
         GpioConfigureInterrupt vTaskSuspend build_sampler set_led
         set_isr_registered set_suspended set_steps set_header
         set_rng_seed progress];
    (split; [| split; [| split]]);
    try (intros Hx; try (exfalso; lia); try reflexivity;
         try (apply Ha; lia); try (apply Hb; lia); try (apply Hc; lia));
    rewrite ?budgets_snoc; cbn [budgets flat_map app];
    rewrite ?app_nil_r; try exact Hd.
  - rewrite Hb, Ha by lia. reflexivity.
  - apply Forall_snoc; [exact Hd |]. symmetry. apply Hc. lia.
Qed.

Lemma budget_inv_run
    (h : Header) (b0 u0 : bool) (sched : list Action) :
  model_artifact w = Some h -> budget_inv h (run w sched (boot b0 u0)).
Proof.
  intros Hm. apply run_invariant.
  - intros s a. apply budget_inv_exec, Hm.
  - repeat split; simpl; intros; try lia. constructor.
Qed.

(** *** Indicator writes come first *)

Lemma order_inv_exec (s : State) (a : Action) :
  order_inv s -> order_inv (exec w s a).
Proof.
  intros H. exec_cases w s a; try exact H;
    destruct H as (Ho & Hd & H96 & H102 & H108);
    rewrite Hpc in Hd, H96, H102, H108;
    try (assert (Hd' := Hd eq_refl); cbn [phase] in Hd');
    try (destruct (H96 eq_refl) as [tr0 Etr]);
    try (destruct (H102 eq_refl) as [tr0 Etr]);
    try (destruct (H108 eq_refl) as [tr0 Etr]);
    clear Hd H96 H102 H108;
    unfold order_inv;
    cbn [pc trace goto emit LedSet printf GpioConfigureInterrupt
         vTaskSuspend build_sampler set_led set_isr_registered
         set_suspended set_steps set_header set_rng_seed
         writes_done phase];
    (split;
     [ order_goal
     | repeat split; intros Hx; try discriminate Hx; order_goal ]).
Qed.

Lemma order_inv_run (b0 u0 : bool) (sched : list Action) :
  order_inv (run w sched (boot b0 u0)).
Proof.
  apply run_invariant; [intros s a; apply order_inv_exec |].
  split; [exact ordered_nil |]. repeat split; discriminate.
Qed.

End Machine.

(** ** Whole calls *)

Lemma LoadLlamaModel_events (w : World) (h : Header) (s : State) :
  artifacts_ok w h ->
  emitted_by (LoadLlamaModel w) s =
  [EvPrintf MsgLoading; EvNew llama_model_buffer; EvBuild transformer;
   EvNew llama_tokenizer_buffer; EvBuild tokenizer; EvBuild sampler;
   EvPrintf MsgLoadingTook].
Proof.
  intros [Hm Ht]. unfold emitted_by. destruct w, s. simpl in Hm, Ht. subst.
  cbv -[app skipn length ResolveStepBudget Z.eqb Z.gtb].
  rewrite <- !app_assoc. apply skipn_length_app.
Qed.

Lemma UnloadLlamaModel_events (s : State) :
  emitted_by UnloadLlamaModel s =
  [EvPrintf MsgUnloading; EvFree sampler; EvFree tokenizer;
   EvFree transformer; EvDelete llama_tokenizer_buffer;
   EvDelete llama_model_buffer].
Proof.
  unfold emitted_by. destruct s. cbv -[app skipn length].
  rewrite <- !app_assoc. apply skipn_length_app.
Qed.

(** ** Concrete runs *)

Example first_cycle_entry_pc :
  pc first_cycle_entry = L107_LedStatusOn /\ suspended first_cycle_entry = false
  /\ trace first_cycle_entry <> [].
Proof. vm_compute. repeat split; discriminate. Qed.

(** ** Properties of the controller and of the lifecycle manager *)

(** C1, as the code has it. From the entry of a generation cycle, any
    number of button presses delivered before the cycle's last statement
    has run start no further cycle: once the task is left to run, the
    state is the one a run without those presses reaches; the task has run
    the current cycle only (one more call of [generate], not two and not
    N + 1), is parked in [vTaskSuspend], and stays there however long it
    is left to run. *)
Theorem presses_during_generation_start_no_cycle
    (w : World) (s0 : State) (within : list Action) (k : nat) :
  pc s0 = L107_LedStatusOn -> suspended s0 = false ->
  (ticks within <= 5)%nat -> (9 <= ticks within + k)%nat ->
  let s' := run w (within ++ repeat Tick k) s0 in
  s' = run w (repeat Tick 9) s0 /\
  parked s' /\
  generate_calls (trace s') = S (generate_calls (trace s0)) /\
  (forall j, run w (repeat Tick j) s' = s').
Proof.
  intros Hpc Hsusp Hle Hge s'.
  assert (E : s' = run w (repeat Tick 9) s0)
    by (apply cycle_ignores_edges; [assumption | assumption | lia | lia]).
  assert (P : parked s')
    by (rewrite E; apply cycle_from_entry; assumption).
  split; [exact E |]. split; [exact P |]. split.
  - rewrite E. apply generate_calls_cycle; assumption.
  - intros j. apply parked_stays, P.
Qed.

Lemma presses_during_generation_start_no_cycle_witness :
  pc first_cycle_entry = L107_LedStatusOn /\
  suspended first_cycle_entry = false /\
  (ticks three_presses <= 5)%nat /\
  generate_calls
    (trace (run good_world (three_presses ++ repeat Tick 50) first_cycle_entry))
  = S (generate_calls (trace first_cycle_entry)).
Proof.
  split; [reflexivity |]. split; [reflexivity |].
  split; [vm_compute; lia |].
  apply (presses_during_generation_start_no_cycle
           good_world first_cycle_entry three_presses 50);
    [reflexivity | reflexivity | vm_compute; lia | vm_compute; lia].
Defined.

(** Scenario D on the code: after boot, load, one press and three more
    presses while [generate] is running, [generate] has been called once
    however long the task is left to run, where the scenario expects a
    second call. *)
Lemma scenario_D_runs_no_second_cycle :
  edges three_presses = 3%nat /\
  generate_calls (trace first_cycle_entry) = 0%nat /\
  generate_calls
    (trace (run good_world (three_presses ++ repeat Tick 50) first_cycle_entry))
  = 1%nat /\
  ~ ScenarioD_as_specified.
Proof.
  split; [reflexivity |]. split; [reflexivity |]. split; [reflexivity |].
  intros H.
  destruct (H good_world first_cycle_entry three_presses)
    as [k0 Hk]; try reflexivity; try (vm_compute; lia).
  specialize (Hk (k0 + 5)%nat (Nat.le_add_r k0 5)).
  rewrite cycle_ignores_edges in Hk;
    [| reflexivity | reflexivity | vm_compute; lia
     | change (ticks three_presses) with 4%nat; lia].
  rewrite generate_calls_cycle in Hk by reflexivity.
  lia.
Qed.

(** C2. In every run, whatever the schedule, [build_transformer],
    [build_tokenizer] and [build_sampler] are each called at most once and
    in this order, and nothing is ever freed or deleted (no program point
    leads to [UnloadLlamaModel], so there is no teardown and no second
    load); with both artifacts in place, once ten statements have run each
    of the three has been called exactly once, for the rest of the run. *)
Theorem engine_built_once
    (w : World) (b0 u0 : bool) (sched : list Action) :
  let tr := trace (run w sched (boot b0 u0)) in
  (exists later, builds tr ++ later = [transformer; tokenizer; sampler]) /\
  frees tr = [] /\ deletes tr = [] /\
  (forall h, artifacts_ok w h -> (10 <= ticks sched)%nat ->
     builds tr = [transformer; tokenizer; sampler]).
Proof.
  intros tr. unfold tr.
  destruct (build_inv_run w b0 u0 sched) as (Hb & Hf & Hd).
  pose proof (world_inv_run w b0 u0 sched) as [Hh _].
  pose proof (progress_ticks w b0 u0 sched) as Hp.
  set (s := run w sched (boot b0 u0)) in *.
  split; [| split; [exact Hf | split; [exact Hd |]]].
  - rewrite Hb. unfold builds_at.
    destruct (pc s); try destruct (model_artifact w);
      eexists; simpl; reflexivity.
  - intros h [Hm Ht] Hk. rewrite Hb.
    destruct (pc s) eqn:Hpc; simpl in Hp; try lia; try reflexivity.
    destruct Hh as [Hx | Hx]; [reflexivity | congruence | congruence].
Qed.

Lemma engine_built_once_witness :
  artifacts_ok good_world stories15M /\
  builds (trace (run good_world (repeat Tick 14 ++ Edge :: repeat Tick 30)
                   (boot false false)))
  = [transformer; tokenizer; sampler].
Proof.
  split; [split; reflexivity |].
  apply (engine_built_once good_world false false
           (repeat Tick 14 ++ Edge :: repeat Tick 30)) with (h := stories15M).
  - split; reflexivity.
  - vm_compute. lia.
Defined.






(** C6. In every run, every event of a phase's main action (the prints,
    allocations and engine builds of the load, the call of [vTaskSuspend],
    the prints and the engine call of a generation) comes after the two
    [LedSet] calls that set that phase's indicator configuration, with
    nothing but events of the same main action in between, so that an
    observer of the LEDs sees the phase's configuration when the event
    happens; in particular the status LED is on and the user LED off when
    any engine build or [generate] call begins. *)
Theorem indicators_precede_main_action
    (w : World) (b0 u0 : bool) (sched : list Action)
    (pre post : list Event) (e : Event) (p : ApplianceState) :
  trace (run w sched (boot b0 u0)) = pre ++ e :: post ->
  main_action e = Some p ->
  since_writes p pre /\
  leds_after (b0, u0) pre = indicator p /\
  (is_generate_call e = true \/ (exists o, e = EvBuild o) ->
   leds_after (b0, u0) pre = (true, false)).
Proof.
  intros Htr Hm.
  destruct (order_inv_run w b0 u0 sched) as [Ho _].
  pose proof (Ho pre e post p Htr Hm) as Hs.
  pose proof (leds_after_since_writes p pre (b0, u0) Hs) as Hl.
  split; [exact Hs |]. split; [exact Hl |].
  intros He. rewrite Hl.
  destruct He as [He | [o ->]].
  - destruct e; try discriminate He. simpl in Hm. injection Hm as <-.
    reflexivity.
  - simpl in Hm. injection Hm as <-. reflexivity.
Qed.

Lemma indicators_precede_main_action_witness :
  trace_to_first_generate
  = firstn 16 trace_to_first_generate ++ [EvGenerateCall kPrompt 256 64] /\
  leds_after (false, true) (firstn 16 trace_to_first_generate) = (true, false).
Proof.
  split; [reflexivity |].
  destruct (indicators_precede_main_action good_world false true
              (repeat Tick 14 ++ Edge :: repeat Tick 5)
              (firstn 16 trace_to_first_generate) []
              (EvGenerateCall kPrompt 256 64) Generating)
    as (_ & H & _); [reflexivity | reflexivity | exact H].
Defined.

(** C7. With the model or the tokenizer artifact missing or malformed, the
    task never leaves Initializing in any run: no event of the loop ever
    occurs (no Idle indicator write, no wait, no generation); once nine
    statements have run it has halted, exactly one fatal diagnostic has
    been reported, the status LED is on and the user LED off, and no
    further statement or button press changes anything. *)
Theorem load_failure_halts
    (w : World) (b0 u0 : bool) (sched : list Action) :
  model_artifact w = None \/ tokenizer_artifact w = false ->
  let s := run w sched (boot b0 u0) in
  phase (pc s) = Initializing /\
  Forall (fun e => is_loop_event e = false) (trace s) /\
  ((9 <= ticks sched)%nat ->
   pc s = Halted /\
   (exists o, fatals (trace s) = [o]) /\
   led_status s = true /\ led_user s = false /\
   (forall more, run w more s = s)).
Proof.
  intros Hbad s.
  pose proof (world_inv_run w b0 u0 sched) as [_ Hn].
  pose proof (fatal_inv_run w b0 u0 sched) as (Hf & _ & Hl).
  pose proof (progress_ticks w b0 u0 sched) as Hp.
  pose proof (led_inv_run w sched _ (led_inv_boot b0 u0)) as (Hd & _).
  pose proof (wf_run w sched _ (wf_boot b0 u0)) as Hw.
  fold s in Hn, Hf, Hl, Hp, Hd, Hw.
  assert (Hpc : (progress (pc s) <= 8)%nat \/ pc s = Halted).
  { destruct (pc s) eqn:Hpc; simpl; try (left; lia); try (right; reflexivity);
      exfalso; destruct Hn as [Hn1 Hn2]; try discriminate;
      simpl in Hn1, Hn2;
      (destruct Hbad as [Hm | Ht];
       [apply Hn1; [lia | exact Hm]
       | rewrite Hn2 in Ht by lia; discriminate]). }
  assert (Hph : phase (pc s) = Initializing).
  { destruct Hpc as [Hle | Hh]; [| rewrite Hh; reflexivity].
    destruct (pc s); simpl in Hle; try lia; reflexivity. }
  split; [exact Hph |]. split; [apply Hl, Hph |].
  intros Hk.
  assert (Hh : pc s = Halted) by (destruct Hpc as [Hle | Hh]; [lia | exact Hh]).
  split; [exact Hh |]. split; [apply Hf, Hh |].
  rewrite Hh in Hd. specialize (Hd eq_refl). simpl in Hd.
  inversion Hd as [[E1 E2]]. rewrite E1, E2.
  split; [reflexivity |]. split; [reflexivity |].
  intros more. apply halted_absorbs; assumption.
Qed.

Lemma load_failure_halts_witness :
  tokenizer_artifact no_tokenizer_world = false /\
  let s := run no_tokenizer_world (repeat Tick 9 ++ Edge :: repeat Tick 20)
             (boot false true) in
  pc s = Halted /\ led_status s = true /\ led_user s = false.
Proof.
  split; [reflexivity |].
  destruct (load_failure_halts no_tokenizer_world false true
              (repeat Tick 9 ++ Edge :: repeat Tick 20))
    as (_ & _ & H).
  - right. reflexivity.
  - destruct H as (H1 & _ & H2 & H3 & _); [vm_compute; lia |].
    repeat split; assumption.
Defined.

(** C8. With both artifacts in place, [LoadLlamaModel] builds the
    transformer (weights), then the tokenizer, then the sampler, and
    [UnloadLlamaModel] frees them in the reverse order: sampler,
    tokenizer, transformer; the two backing buffers are deleted in the
    reverse order of their allocation; and taking each engine object
    together with its buffer as one resource, the resources are released
    in the reverse of the order of their acquisition, whether one looks at
    the first or at the last event of each. *)
Theorem unload_reverses_load (w : World) (h : Header) (s s' : State) :
  artifacts_ok w h ->
  let acquired := emitted_by (LoadLlamaModel w) s in
  let released := emitted_by UnloadLlamaModel s' in
  builds acquired = [transformer; tokenizer; sampler] /\
  frees released = [sampler; tokenizer; transformer] /\
  frees released = rev (builds acquired) /\
  deletes released = rev (news acquired) /\
  first_occurrences (flat_map acquires acquired)
  = [Weights; TokenizerTable; SamplerState] /\
  first_occurrences (flat_map releases released)
  = rev (first_occurrences (flat_map acquires acquired)) /\
  last_occurrences (flat_map releases released)
  = rev (last_occurrences (flat_map acquires acquired)).
Proof.
  intros Hok acquired released. unfold acquired, released.
  rewrite (LoadLlamaModel_events w h s Hok), UnloadLlamaModel_events.
  repeat split.
Qed.

Lemma unload_reverses_load_witness :
  artifacts_ok good_world stories15M /\
  frees (emitted_by UnloadLlamaModel
           (run good_world (repeat Tick 14) (boot false false)))
  = rev (builds (emitted_by (LoadLlamaModel good_world) (boot false false))).
Proof.
  split; [split; reflexivity |].
  apply (unload_reverses_load good_world stories15M
           (boot false false)
           (run good_world (repeat Tick 14) (boot false false))).
  split; reflexivity.
Defined.

(** The release order is not the mirror image of the acquisition order
    event by event: [free_transformer] comes before the tokenizer buffer
    is deleted. *)
Remark unload_events_not_mirrored (s : State) :
  flat_map releases (emitted_by UnloadLlamaModel s)
  = [SamplerState; TokenizerTable; Weights; TokenizerTable; Weights].
Proof. rewrite UnloadLlamaModel_events. reflexivity. Qed.

(** C9. While the task is in Initializing or in a generation cycle it is
    not suspended, and button presses delivered then are lost: they leave
    the state as it is, so the rest of any run is the same with or without
    them; left to run afterwards, the task comes to rest inside
    [vTaskSuspend] (or halted, if loading failed) and stays there; parked,
    it is a press delivered after the suspension that makes it runnable and
    takes it to line 107. *)
Theorem wake_outside_wait_is_lost
    (w : World) (b0 u0 : bool) (pre : list Action) (n : nat) :
  let s := run w pre (boot b0 u0) in
  phase (pc s) = Initializing \/ phase (pc s) = Generating ->
  suspended s = false /\
  run w (repeat Edge n) s = s /\
  (forall post,
     run w (pre ++ repeat Edge n ++ post) (boot b0 u0)
     = run w (pre ++ post) (boot b0 u0)) /\
  (forall k, (14 <= k)%nat ->
     let s' := run w (repeat Edge n ++ repeat Tick k) s in
     settled s' /\
     (forall j, run w (repeat Tick j) s' = s') /\
     (parked s' ->
      suspended (exec w s' Edge) = false /\
      pc (exec w (exec w s' Edge) Tick) = L107_LedStatusOn)).
Proof.
  intros s Hph.
  assert (Hw : wf s) by (apply wf_run, wf_boot).
  assert (Hsusp : suspended s = false).
  { apply running_outside_Idle; [exact Hw |].
    destruct Hph as [E | E]; rewrite E; discriminate. }
  assert (He : run w (repeat Edge n) s = s)
    by (apply edges_unsuspended, Hsusp).
  split; [exact Hsusp |]. split; [exact He |]. split.
  - intros post. rewrite !run_app. fold s. rewrite He. reflexivity.
  - intros k Hk s'.
    assert (Es' : s' = run w (repeat Tick k) s)
      by (unfold s'; rewrite run_app, He; reflexivity).
    assert (Hw' : wf s') by (rewrite Es'; apply wf_run, Hw).
    assert (Hset : settled s').
    { rewrite Es'. apply settles; [exact Hw |].
      pose proof (rest_bound s). lia. }
    split; [exact Hset |]. split.
    + intros j. apply settled_ticks; assumption.
    + intros [Hp Hs]. destruct Hw' as [_ Hi].
      assert (Hisr : isr_registered s' = true)
        by (apply Hi; rewrite Hp; discriminate).
      assert (Ee : exec w s' Edge = set_suspended false s').
      { unfold exec. rewrite Hisr. unfold xTaskResumeFromISR.
        rewrite Hs. reflexivity. }
      rewrite Ee. split; [reflexivity |].
      unfold exec. cbn [suspended set_suspended].
      unfold task_step. cbn [pc set_suspended]. rewrite Hp. reflexivity.
Qed.

Lemma wake_outside_wait_is_lost_witness :
  let s := run good_world (repeat Tick 14 ++ [Edge; Tick; Tick; Tick; Tick; Tick])
             (boot false false) in
  pc s = L79_GenerateRunning /\
  suspended s = false /\ run good_world (repeat Edge 3) s = s.
Proof.
  intros s. split; [reflexivity |].
  destruct (wake_outside_wait_is_lost good_world false false
              (repeat Tick 14 ++ [Edge; Tick; Tick; Tick; Tick; Tick]) 3)
    as (H1 & H2 & _).
  - right. reflexivity.
  - split; [exact H1 | exact H2].
Defined.

(** C10. In every state [app_main] can reach, under any interleaving of
    task statements and button edges, once the phase's two [LedSet] calls
    are behind (so at every engine call, at the wait point, while parked,
    and after a fatal halt): exactly one of the two LEDs is lit, it is the
    status LED during Initializing and Generating, and the user LED during
    Idle. *)
Theorem leds_identify_phase
    (w : World) (b0 u0 : bool) (sched : list Action) :
  let s := run w sched (boot b0 u0) in
  writes_done (pc s) = true ->
  xorb (led_status s) (led_user s) = true /\
  match phase (pc s) with
  | Initializing | Generating => led_status s = true /\ led_user s = false
  | Idle => led_status s = false /\ led_user s = true
  end.
Proof.
  intros s Hdone.
  destruct (led_inv_run w sched (boot b0 u0) (led_inv_boot b0 u0))
    as (Hd & _).
  fold s in Hd. specialize (Hd Hdone).
  destruct (phase (pc s)); simpl in Hd; inversion Hd as [[E1 E2]];
    rewrite ?E1, ?E2; repeat split.
Qed.

Lemma leds_identify_phase_witness :
  let s := run good_world (repeat Tick 14) (boot true true) in
  pc s = L103_Parked /\ led_status s = false /\ led_user s = true.
Proof.
  split; [reflexivity |].
  apply (leds_identify_phase good_world true true (repeat Tick 14)).
  reflexivity.
Defined.

(** * Further properties *)

(** ** The clamp of lines 45-47 *)

(** X7. The clamp is idempotent, and so is its effect in
    [LoadLlamaModel]: with both artifacts in place, a second load leaves
    [steps] as the first one set it. *)
Theorem reload_keeps_step_budget (w : World) (h : Header) (s : State) :
  artifacts_ok w h ->
  (forall M r, ResolveStepBudget M (ResolveStepBudget M r)
               = ResolveStepBudget M r) /\
  steps (LoadLlamaModel w s) = ResolveStepBudget (h_seq_len h) (steps s) /\
  steps (LoadLlamaModel w (LoadLlamaModel w s)) = steps (LoadLlamaModel w s).
Proof.
  intros [Hm Ht].
  assert (Hid : forall M r, ResolveStepBudget M (ResolveStepBudget M r)
                            = ResolveStepBudget M r).
  { intros M r.
    destruct (ResolveStepBudget_cases M r) as [[_ E] | [[H0 H1] E]];
      rewrite E.
    - destruct (ResolveStepBudget_cases M M) as [[_ E'] | [_ E']]; exact E'.
    - destruct (ResolveStepBudget_cases M r) as [[H _] | [_ E']];
        [lia | exact E']. }
  assert (Hst : forall s', steps (LoadLlamaModel w s')
                           = ResolveStepBudget (h_seq_len h) (steps s')).
  { intros s'. destruct w, s'. simpl in Hm, Ht. subst.
    cbv -[ResolveStepBudget]. reflexivity. }
  split; [exact Hid |]. split; [apply Hst |].
  rewrite !Hst. apply Hid.
Qed.

Lemma reload_keeps_step_budget_witness :
  artifacts_ok good_world stories15M /\
  steps (LoadLlamaModel good_world
           (LoadLlamaModel good_world (set_steps 1000 (boot false false))))
  = steps (LoadLlamaModel good_world (set_steps 1000 (boot false false))).
Proof.
  split; [split; reflexivity |].
  apply (reload_keeps_step_budget good_world stories15M
           (set_steps 1000 (boot false false))).
  split; reflexivity.
Defined.

(** X8. Whatever the request and the model maximum, the resolved budget
    never exceeds the model maximum; for a request of at least 1 it is the
    smaller of the two. *)
Theorem ResolveStepBudget_at_most_max (M r : Z) :
  ResolveStepBudget M r <= M /\
  (1 <= r -> ResolveStepBudget M r = Z.min r M).
Proof.
  destruct (ResolveStepBudget_cases M r) as [[H E] | [[H0 H1] E]];
    rewrite E; split; intros; lia.
Qed.

Lemma ResolveStepBudget_at_most_max_witness :
  1 <= 1000 /\ ResolveStepBudget 256 1000 = Z.min 1000 256.
Proof.
  split; [lia |].
  apply (proj2 (ResolveStepBudget_at_most_max 256 1000)). lia.
Defined.

(** ** The machine in a fixed world, continued *)

Lemma edges_cons (a : Action) (l : list Action) :
  edges (a :: l) = ((if is_tick a then 0 else 1) + edges l)%nat.
Proof. unfold edges. simpl. destruct (is_tick a); reflexivity. Qed.

Section MachineFurther.

Variable w : World.

(** *** Presses and generations *)

Lemma owed_exec (s : State) (a : Action) :
  wf s ->
  (generate_calls (trace (exec w s a)) + owed (exec w s a)
   = generate_calls (trace s) + owed s
     + match a with
       | Edge => if suspended s then 1 else 0
       | Tick => 0
       end)%nat.
Proof.
  intros [Hs Hi]. exec_cases w s a;
    unfold owed;
    cbn [pc trace suspended goto emit LedSet printf GpioConfigureInterrupt
         vTaskSuspend build_sampler set_led set_isr_registered
         set_suspended set_steps set_header set_rng_seed];
    rewrite ?Hpc, ?Hsusp, ?generate_calls_app;
    cbn [generate_calls filter is_generate_call length];
    try lia.
  - rewrite (Hs eq_refl). lia.
  - destruct (suspended s) eqn:Hsusp; [| lia].
    assert (Hx : false = true)
      by (apply Hi; rewrite (Hs eq_refl); discriminate).
    discriminate Hx.
Qed.

Lemma wakes_le_edges (sched : list Action) :
  forall s, (wakes w sched s <= edges sched)%nat.
Proof.
  induction sched as [| a l IH]; intros s; [apply Nat.le_refl |].
  rewrite edges_cons. cbn [wakes]. specialize (IH (exec w s a)).
  destruct a; [| destruct (suspended s)]; cbn [is_tick]; lia.
Qed.

Lemma owed_run (sched : list Action) :
  forall s, wf s ->
    (generate_calls (trace (run w sched s)) + owed (run w sched s)
     = generate_calls (trace s) + owed s + wakes w sched s)%nat.
Proof.
  induction sched as [| a l IH]; intros s Hw.
  - simpl. lia.
  - rewrite run_cons, IH by (apply wf_exec, Hw).
    rewrite owed_exec by exact Hw. cbn [wakes]. lia.
Qed.

(** *** The LEDs between the two writes of a transition *)

Lemma led_loop_inv_exec (s : State) (a : Action) :
  led_inv s -> led_loop_inv s -> led_loop_inv (exec w s a).
Proof.
  intros Hl H. exec_cases w s a; try exact H;
    destruct Hl as (Hd & _); destruct H as (K101 & K102 & K107 & K108);
    rewrite ?Hpc in *;
    try (assert (Hd' := Hd eq_refl); cbn in Hd';
         injection Hd' as E1 E2);
    try (destruct (K101 eq_refl) as [F1 F2]);
    try (destruct (K102 eq_refl) as [F1 F2]);
    try (destruct (K107 eq_refl) as [F1 F2]);
    try (destruct (K108 eq_refl) as [F1 F2]);
    unfold led_loop_inv;
    cbn [pc led_status led_user goto emit LedSet printf
         GpioConfigureInterrupt vTaskSuspend build_sampler set_led
         set_isr_registered set_suspended set_steps set_header
         set_rng_seed];
    repeat split; try congruence;
    try (apply K101; assumption); try (apply K102; assumption);
    try (apply K107; assumption); try (apply K108; assumption).
Qed.

Lemma led_loop_inv_run (b0 u0 : bool) (sched : list Action) :
  led_loop_inv (run w sched (boot b0 u0)).
Proof.
  apply (run_invariant w (fun s => led_inv s /\ led_loop_inv s)).
  - intros s a [Hl H]. split;
      [apply led_inv_exec, Hl | apply led_loop_inv_exec; assumption].
  - split; [apply led_inv_boot |]. repeat split; discriminate.
Qed.

(** *** The interrupt registration *)

Lemma gpio_inv_exec (s : State) (a : Action) :
  gpio_inv s -> gpio_inv (exec w s a).
Proof.
  intros H. exec_cases w s a; try exact H;
    destruct H as (H0 & H1); rewrite ?Hpc in *;
    try (destruct (H0 eq_refl) as [E0 E0']);
    try (destruct (H1 ltac:(discriminate)) as (later & E1 & F1));
    unfold gpio_inv;
    cbn [pc trace isr_registered goto emit LedSet printf
         GpioConfigureInterrupt vTaskSuspend build_sampler set_led
         set_isr_registered set_suspended set_steps set_header
         set_rng_seed];
    (split; intros Hx;
     [ try discriminate Hx; try (split; assumption)
     | try (contradiction Hx; reflexivity) ]);
    rewrite ?E0, ?E1;
    try (eexists; split; [reflexivity | constructor]);
    try (exists later; split; [reflexivity | exact F1]);
    try (eexists; split;
         [ rewrite <- ?app_comm_cons; reflexivity
         | repeat (apply Forall_snoc; [| reflexivity]); exact F1 ]).
Qed.

Lemma gpio_inv_run (b0 u0 : bool) (sched : list Action) :
  gpio_inv (run w sched (boot b0 u0)).
Proof.
  apply run_invariant; [intros s a; apply gpio_inv_exec |].
  split; [intros _; split; reflexivity | intros H; contradiction H; reflexivity].
Qed.

Lemma only_edges_at_boot (b0 u0 : bool) (sched : list Action) :
  ticks sched = 0%nat -> run w sched (boot b0 u0) = boot b0 u0.
Proof.
  induction sched as [| a l IH]; intros H; [reflexivity |].
  destruct a; [discriminate H |].
  rewrite run_cons, edge_unsuspended by reflexivity. apply IH, H.
Qed.

(** *** The engine globals *)

Lemma engine_inv_exec (h : Header) (s : State) (a : Action) :
  model_artifact w = Some h ->
  budget_inv h s -> engine_inv w h s -> engine_inv w h (exec w s a).
Proof.
  intros Hm Hb H. exec_cases w s a; try exact H;
    try discriminate Hm; try (injection Hm as Hm; subst);
    destruct Hb as (_ & _ & Hst & _);
    destruct H as (Ha & Hr & Hc); rewrite Hpc in Ha, Hr, Hst;
    cbn [progress] in Ha, Hr, Hst;
    unfold engine_inv;
    cbn [pc trace steps seq_len vocab_size group_size rng_seed goto emit
         LedSet printf GpioConfigureInterrupt vTaskSuspend build_sampler
         set_led set_isr_registered set_suspended set_steps set_header
         set_rng_seed progress];
    (split; [| split]);
    try (intros Hx; try (exfalso; lia); try (apply Ha; lia));
    try (intros Hy; try (contradiction Hy; reflexivity);
         try reflexivity; try (apply Hr; [lia | discriminate]));
    try (repeat split; reflexivity);
    try exact Hc;
    repeat (apply Forall_snoc; [| exact I]); try exact Hc.
  apply Forall_snoc; [exact Hc |].
  destruct Ha as (_ & _ & Hg); [lia |].
  repeat split; [apply Hst; lia | exact Hg].
Qed.

Lemma engine_inv_run (h : Header) (b0 u0 : bool) (sched : list Action) :
  model_artifact w = Some h -> engine_inv w h (run w sched (boot b0 u0)).
Proof.
  intros Hm.
  apply (run_invariant w (fun s => budget_inv h s /\ engine_inv w h s)).
  - intros s a [Hb H]. split;
      [apply budget_inv_exec; assumption | apply engine_inv_exec; assumption].
  - split.
    + repeat split; simpl; intros; try lia. constructor.
    + split; [intros H; simpl in H; lia |].
      split; [intros H; simpl in H; lia | constructor].
Qed.

(** *** From the wait point *)

(** A woken task runs one cycle and parks, whatever is pressed on the
    way. *)
Lemma woken_runs_one_cycle (s : State) (within : list Action) :
  forall k,
    pc s = L103_Parked -> suspended s = false ->
    (ticks within <= 9)%nat -> (10 <= ticks within + k)%nat ->
    run w (within ++ repeat Tick k) s = run w (repeat Tick 10) s.
Proof.
  induction within as [| a l IH]; intros k Hpc Hsusp Hle Hge.
  - change (ticks []) with 0%nat in Hge. simpl app.
    replace k with (10 + (k - 10))%nat by lia.
    rewrite repeat_app, run_app. apply parked_stays.
    change (repeat Tick 10) with (Tick :: repeat Tick 9). rewrite run_cons.
    apply cycle_from_entry; unfold exec; rewrite Hsusp;
      unfold task_step; rewrite Hpc; [reflexivity | exact Hsusp].
  - destruct a.
    + change (ticks (Tick :: l)) with (S (ticks l)) in *.
      change (repeat Tick 10) with (Tick :: repeat Tick 9).
      rewrite <- app_comm_cons, !run_cons.
      apply cycle_ignores_edges; try lia;
        unfold exec; rewrite Hsusp; unfold task_step; rewrite Hpc;
        [reflexivity | exact Hsusp].
    + change (ticks (Edge :: l)) with (ticks l) in *.
      rewrite <- app_comm_cons, run_cons, edge_unsuspended by exact Hsusp.
      apply IH; assumption.
Qed.

(** *** With both artifacts in place *)

Lemma awake_step (h : Header) (s : State) :
  artifacts_ok w h ->
  suspended s = false -> pc s <> Halted -> (2 <= dist (pc s))%nat ->
  let s' := exec w s Tick in
  suspended s' = false /\ pc s' <> Halted /\ S (dist (pc s')) = dist (pc s).
Proof.
  intros [Hm Ht] Hsusp Hh Hd. unfold exec. rewrite Hsusp. unfold task_step.
  destruct (pc s); simpl in Hd; try lia; try (contradiction Hh; reflexivity);
    unfold build_transformer, build_tokenizer; rewrite ?Hm, ?Ht;
    cbn; rewrite ?Hsusp; repeat split; discriminate.
Qed.

(** Presses that arrive before the next [vTaskSuspend] leave the run as
    it is without them. *)
Lemma edges_erased_awake (h : Header) (within : list Action) :
  artifacts_ok w h ->
  forall s,
    suspended s = false -> pc s <> Halted ->
    (ticks within < dist (pc s))%nat ->
    run w within s = run w (repeat Tick (ticks within)) s.
Proof.
  intros Hok. induction within as [| a l IH]; intros s Hsusp Hh Hd.
  - reflexivity.
  - destruct a.
    + change (ticks (Tick :: l)) with (S (ticks l)) in *.
      simpl repeat. rewrite !run_cons.
      destruct (awake_step h s Hok Hsusp Hh) as (Hs' & Hh' & Hd'); [lia |].
      apply IH; [exact Hs' | exact Hh' | lia].
    + change (ticks (Edge :: l)) with (ticks l) in *.
      rewrite run_cons, edge_unsuspended by exact Hsusp.
      apply IH; assumption.
Qed.

Lemma never_halts (h : Header) (b0 u0 : bool) (sched : list Action) :
  artifacts_ok w h -> pc (run w sched (boot b0 u0)) <> Halted.
Proof.
  intros [Hm Ht] Hh.
  destruct (world_inv_run w b0 u0 sched) as [Hx _].
  destruct (Hx Hh) as [E | E]; congruence.
Qed.

End MachineFurther.

(** ** Whole runs *)

Lemma boot_to_idle (w : World) (h : Header) (b0 u0 : bool) :
  artifacts_ok w h ->
  run w (repeat Tick 14) (boot b0 u0) = idle_after_boot w h.
Proof.
  intros [Hm Ht]. destruct w. simpl in Hm, Ht. subst.
  cbv -[ResolveStepBudget]. reflexivity.
Qed.

Lemma press_cycle (w : World) (s : State) :
  parked s -> isr_registered s = true ->
  run w (Edge :: repeat Tick 10) s = after_cycle s.
Proof.
  intros [Hpc Hsusp] Hisr. destruct s. simpl in Hpc, Hsusp, Hisr. subst.
  cbv -[app]. rewrite <- !app_assoc. reflexivity.
Qed.

Lemma woken_state (w : World) (s : State) :
  parked s -> isr_registered s = true ->
  exec w s Edge = set_suspended false s.
Proof.
  intros [_ Hsusp] Hisr. unfold exec, xTaskResumeFromISR.
  rewrite Hisr, Hsusp. reflexivity.
Qed.

(** X1. One press while the task is parked in [vTaskSuspend], whatever
    further presses follow it during the cycle, runs exactly one cycle:
    the task parks again, the trace has grown by the events of one pass
    through lines 107-109 and 101-103 with one call of [generate], the
    user LED is on and the status LED off, and the engine globals are
    untouched. *)
Theorem press_while_parked_runs_one_cycle
    (w : World) (s : State) (within : list Action) (k : nat) :
  parked s -> isr_registered s = true ->
  (ticks within <= 9)%nat -> (10 <= ticks within + k)%nat ->
  let s' := run w (Edge :: within ++ repeat Tick k) s in
  s' = after_cycle s /\
  parked s' /\
  generate_calls (trace s') = S (generate_calls (trace s)).
Proof.
  intros Hp Hisr Hle Hge s'.
  assert (E : s' = after_cycle s).
  { unfold s'. rewrite run_cons, (woken_state w s Hp Hisr).
    rewrite woken_runs_one_cycle;
      [| apply Hp | reflexivity | exact Hle | exact Hge].
    rewrite <- (woken_state w s Hp Hisr), <- run_cons.
    apply press_cycle; assumption. }
  rewrite E. split; [reflexivity |]. split; [split; reflexivity |].
  cbn [trace after_cycle]. rewrite generate_calls_app.
  generalize (generate_calls (trace s)); intros g. cbn. lia.
Qed.

Lemma press_while_parked_runs_one_cycle_witness :
  let s := run good_world (repeat Tick 14) (boot false false) in
  parked s /\
  generate_calls
    (trace (run good_world (Edge :: [Edge; Tick; Edge] ++ repeat Tick 20) s))
  = S (generate_calls (trace s)).
Proof.
  intros s. split; [split; reflexivity |].
  apply (press_while_parked_runs_one_cycle good_world s [Edge; Tick; Edge] 20).
  - split; reflexivity.
  - reflexivity.
  - vm_compute. lia.
  - vm_compute. lia.
Defined.

(** X2. At line 103, just before [vTaskSuspend] is called, the user LED
    is already on and the status LED off, yet presses delivered there are
    lost: the task parks as if nothing had been pressed and no generation
    follows. *)
Theorem press_just_before_suspend_is_lost
    (w : World) (b0 u0 : bool) (sched : list Action) (n k : nat) :
  let s := run w sched (boot b0 u0) in
  pc s = L103_TaskSuspend -> (1 <= k)%nat ->
  led_status s = false /\ led_user s = true /\
  let s' := run w (repeat Edge n ++ repeat Tick k) s in
  s' = run w [Tick] s /\ parked s' /\
  generate_calls (trace s') = generate_calls (trace s).
Proof.
  intros s Hpc Hk.
  pose proof (wf_run w sched _ (wf_boot b0 u0)) as [Hs _].
  pose proof (led_inv_run w sched _ (led_inv_boot b0 u0)) as [Hd _].
  fold s in Hs, Hd.
  assert (Hsusp : suspended s = false).
  { destruct (suspended s); [| reflexivity].
    rewrite Hs in Hpc by reflexivity. discriminate Hpc. }
  rewrite Hpc in Hd. specialize (Hd eq_refl). simpl in Hd.
  injection Hd as E1 E2.
  split; [exact E1 |]. split; [exact E2 |].
  intros s'.
  assert (Hone : run w [Tick] s = goto L103_Parked (vTaskSuspend s)).
  { simpl. unfold exec. rewrite Hsusp. unfold task_step. rewrite Hpc.
    reflexivity. }
  assert (Hpk : parked (run w [Tick] s))
    by (rewrite Hone; split; reflexivity).
  assert (E : s' = run w [Tick] s).
  { unfold s'. rewrite run_app, edges_unsuspended by exact Hsusp.
    replace k with (1 + (k - 1))%nat by lia.
    rewrite repeat_app, run_app. apply parked_stays, Hpk. }
  rewrite E. split; [reflexivity |]. split; [exact Hpk |].
  rewrite Hone. cbn [trace goto vTaskSuspend emit set_suspended].
  rewrite generate_calls_app. cbn. lia.
Qed.

Lemma press_just_before_suspend_is_lost_witness :
  let s := run good_world (repeat Tick 13) (boot false false) in
  pc s = L103_TaskSuspend /\ led_user s = true /\
  parked (run good_world (repeat Edge 3 ++ repeat Tick 5) s).
Proof.
  intros s. split; [reflexivity |].
  destruct (press_just_before_suspend_is_lost good_world false false
              (repeat Tick 13) 3 5) as (_ & H1 & _ & H2 & _).
  - reflexivity.
  - lia.
  - split; [exact H1 | exact H2].
Defined.

(** X3. With both artifacts in place, the boot reaches Idle in fourteen
    statements whatever is pressed on the way: the task is parked, the
    events are those of lines 89-103 in order, [steps] holds the clamp of
    [kSteps], the transformer configuration holds the header's values and
    the sampler's seed is the tick count. *)
Theorem boot_reaches_idle
    (w : World) (h : Header) (b0 u0 : bool) (sched : list Action) (k : nat) :
  artifacts_ok w h ->
  (ticks sched <= 13)%nat -> (14 <= ticks sched + k)%nat ->
  let s := run w (sched ++ repeat Tick k) (boot b0 u0) in
  s = idle_after_boot w h /\ parked s /\ trace s = boot_events.
Proof.
  intros Hok Hle Hge s.
  assert (E : s = idle_after_boot w h).
  { unfold s. rewrite run_app.
    rewrite (edges_erased_awake w h sched Hok (boot b0 u0));
      [| reflexivity | discriminate | simpl; lia].
    rewrite <- run_app, <- repeat_app.
    replace (ticks sched + k)%nat with (14 + (ticks sched + k - 14))%nat
      by lia.
    rewrite repeat_app, run_app, (boot_to_idle w h b0 u0 Hok).
    apply parked_stays. split; reflexivity. }
  rewrite E. split; [reflexivity |]. split; [split |]; reflexivity.
Qed.

Lemma boot_reaches_idle_witness :
  artifacts_ok good_world stories15M /\
  trace (run good_world ([Tick; Edge; Tick; Tick; Edge] ++ repeat Tick 11)
           (boot true true))
  = boot_events.
Proof.
  split; [split; reflexivity |].
  apply (boot_reaches_idle good_world stories15M true true
           [Tick; Edge; Tick; Tick; Edge] 11).
  - split; reflexivity.
  - vm_compute. lia.
  - vm_compute. lia.
Defined.

(** X4. In every run the generations run so far plus the one the task
    may still owe (woken, [generate] not yet called) equal the number of
    presses that arrived while the task was suspended; so there are never
    more calls of [generate] than presses, and none without a press. *)
Theorem generations_match_wakes
    (w : World) (b0 u0 : bool) (sched : list Action) :
  let s := run w sched (boot b0 u0) in
  (generate_calls (trace s) + owed s = wakes w sched (boot b0 u0))%nat /\
  (generate_calls (trace s) <= edges sched)%nat.
Proof.
  intros s.
  pose proof (owed_run w sched (boot b0 u0) (wf_boot b0 u0)) as H.
  fold s in H. change (generate_calls (trace (boot b0 u0))) with 0%nat in H.
  change (owed (boot b0 u0)) with 0%nat in H.
  pose proof (wakes_le_edges w sched (boot b0 u0)).
  split; lia.
Qed.

(** X5. Between the two [LedSet] calls of a transition the LEDs are in
    neither phase's configuration: on the way into Idle (line 102) both
    are off, on the way into Generating (line 108) both are on. *)
Theorem leds_between_writes
    (w : World) (b0 u0 : bool) (sched : list Action) :
  let s := run w sched (boot b0 u0) in
  (pc s = L102_LedUserOn -> led_status s = false /\ led_user s = false) /\
  (pc s = L108_LedUserOff -> led_status s = true /\ led_user s = true).
Proof.
  intros s.
  destruct (led_loop_inv_run w b0 u0 sched) as (_ & K102 & _ & K108).
  split; assumption.
Qed.

Lemma leds_between_writes_witness :
  let s := run good_world (repeat Tick 14 ++ Edge :: repeat Tick 2)
             (boot false false) in
  pc s = L108_LedUserOff /\ led_status s = true /\ led_user s = true.
Proof.
  intros s. split; [reflexivity |].
  apply (proj2 (leds_between_writes good_world false false
                  (repeat Tick 14 ++ Edge :: repeat Tick 2))).
  reflexivity.
Defined.

(** X6. With both artifacts in place, once the load is over the engine
    globals hold the model header's sequence length, vocabulary size and
    group size, the clamped budget and the tick-count seed for the rest of
    the run, and every call of [generate] is given the empty prompt, the
    clamped budget and the header's group size. *)
Theorem engine_globals_fixed_after_load
    (w : World) (h : Header) (b0 u0 : bool) (sched : list Action) :
  artifacts_ok w h -> (11 <= ticks sched)%nat ->
  let s := run w sched (boot b0 u0) in
  seq_len s = h_seq_len h /\ vocab_size s = h_vocab_size h /\
  group_size s = h_group_size h /\ rng_seed s = tick_count w /\
  steps s = ResolveStepBudget (h_seq_len h) kSteps /\
  Forall (call_ok h) (trace s).
Proof.
  intros Hok Hk s. pose proof Hok as [Hm _].
  destruct (engine_inv_run w h b0 u0 sched Hm) as (Ha & Hr & Hc).
  destruct (budget_inv_run w h b0 u0 sched Hm) as (_ & _ & Hst & _).
  pose proof (progress_ticks w b0 u0 sched) as Hp.
  pose proof (never_halts w h b0 u0 sched Hok) as Hh.
  fold s in Ha, Hr, Hc, Hst, Hp, Hh.
  destruct Ha as (A1 & A2 & A3); [lia |].
  repeat split; try assumption.
  - apply Hr; [lia | exact Hh].
  - apply Hst. lia.
Qed.

Lemma engine_globals_fixed_after_load_witness :
  artifacts_ok good_world stories15M /\
  let s := run good_world (repeat Tick 14 ++ press_and_wait 2)
             (boot false false) in
  rng_seed s = 1234 /\ steps s = 256.
Proof.
  split; [split; reflexivity |].
  destruct (engine_globals_fixed_after_load good_world stories15M false false
              (repeat Tick 14 ++ press_and_wait 2))
    as (_ & _ & _ & H1 & H2 & _).
  - split; reflexivity.
  - vm_compute. lia.
  - split; [exact H1 | exact H2].
Defined.

(** X9. The button interrupt is configured by the very first statement
    and never again: before it, presses leave the boot state as it is;
    after it, the trace starts with the one configuration event (falling
    edge, debounce [kButtonDebounceUs]) and contains no other, and the
    callback stays installed. *)
Theorem interrupt_configured_first_and_once
    (w : World) (b0 u0 : bool) (sched : list Action) :
  let s := run w sched (boot b0 u0) in
  (ticks sched = 0%nat -> s = boot b0 u0) /\
  ((1 <= ticks sched)%nat ->
   isr_registered s = true /\
   exists later,
     trace s = EvGpioConfigureInterrupt kButtonDebounceUs :: later
     /\ Forall (fun e => is_gpio_config e = false) later).
Proof.
  intros s. split.
  - apply only_edges_at_boot.
  - intros Hk.
    pose proof (progress_ticks w b0 u0 sched) as Hp.
    pose proof (wf_run w sched _ (wf_boot b0 u0)) as [_ Hi].
    destruct (gpio_inv_run w b0 u0 sched) as [_ Hg].
    fold s in Hp, Hi, Hg.
    assert (Hpc : pc s <> L89_GpioConfigureInterrupt).
    { intros E. rewrite E in Hp. simpl in Hp. lia. }
    split; [apply Hi, Hpc | apply Hg, Hpc].
Qed.

Lemma interrupt_configured_first_and_once_witness :
  isr_registered (run good_world (Edge :: Tick :: press_and_wait 1)
                    (boot false false)) = true.
Proof.
  apply (proj2 (interrupt_configured_first_and_once good_world false false
                  (Edge :: Tick :: press_and_wait 1))).
  vm_compute. lia.
Defined.

(** X10. With both artifacts in place the task never halts, and from
    any point of any run, left to run for fourteen statements, it is
    parked in [vTaskSuspend] with the user LED on and the status LED
    off. *)
Theorem always_returns_to_idle
    (w : World) (h : Header) (b0 u0 : bool) (sched : list Action) (k : nat) :
  artifacts_ok w h -> (14 <= k)%nat ->
  pc (run w sched (boot b0 u0)) <> Halted /\
  let s := run w (sched ++ repeat Tick k) (boot b0 u0) in
  parked s /\ led_status s = false /\ led_user s = true.
Proof.
  intros Hok Hk. split; [apply (never_halts w h), Hok |].
  intros s.
  pose proof (never_halts w h b0 u0 (sched ++ repeat Tick k) Hok) as Hh.
  pose proof (led_inv_run w (sched ++ repeat Tick k) _ (led_inv_boot b0 u0))
    as [Hd _].
  fold s in Hh, Hd.
  assert (Hset : settled s).
  { unfold s. rewrite run_app. apply settles.
    - apply wf_run, wf_boot.
    - pose proof (rest_bound (run w sched (boot b0 u0))). lia. }
  destruct Hset as [Hp | Hx]; [| contradiction].
  split; [exact Hp |].
  destruct Hp as [Hpc _]. rewrite Hpc in Hd. specialize (Hd eq_refl).
  simpl in Hd. injection Hd as E1 E2. split; assumption.
Qed.

Lemma always_returns_to_idle_witness :
  artifacts_ok good_world stories15M /\
  parked (run good_world
            ((repeat Tick 14 ++ [Edge; Tick; Tick; Tick; Edge])
             ++ repeat Tick 14)
            (boot false false)).
Proof.
  split; [split; reflexivity |].
  apply (always_returns_to_idle good_world stories15M false false
           (repeat Tick 14 ++ [Edge; Tick; Tick; Tick; Edge]) 14).
  - split; reflexivity.
  - lia.
Defined.

Lemma spaced_presses_from_parked (w : World) (n : nat) :
  forall s, parked s -> isr_registered s = true ->
    let s' := run w (press_and_wait n) s in
    parked s' /\ isr_registered s' = true /\
    trace s' = trace s ++ concat (repeat (cycle_events s) n) /\
    generate_calls (trace s') = (generate_calls (trace s) + n)%nat.
Proof.
  induction n as [| n IH]; intros s Hp Hisr.
  - simpl. rewrite app_nil_r. repeat split; try apply Hp; auto.
  - change (press_and_wait (S n))
      with ((Edge :: repeat Tick 10) ++ press_and_wait n).
    cbv zeta. rewrite run_app, (press_cycle w s Hp Hisr).
    destruct (IH (after_cycle s)) as (P & I & T & G);
      [split; reflexivity | exact Hisr |].
    split; [exact P |]. split; [exact I |]. split.
    + rewrite T. cbn [trace after_cycle repeat concat].
      rewrite <- app_assoc. reflexivity.
    + rewrite G. cbn [trace after_cycle]. rewrite generate_calls_app.
      generalize (generate_calls (trace s)); intros g. cbn. lia.
Qed.

(** X11. With both artifacts in place, a boot followed by [n] presses,
    each given the ten statements of a cycle before the next, produces
    exactly the boot events followed by [n] copies of the cycle's events:
    [n] calls of [generate], each with the empty prompt, the clamped
    budget and the header's group size, and the task is parked at the
    end. *)
Theorem spaced_presses_run_one_cycle_each
    (w : World) (h : Header) (b0 u0 : bool) (n : nat) :
  artifacts_ok w h ->
  let s := run w (repeat Tick 14 ++ press_and_wait n) (boot b0 u0) in
  parked s /\
  trace s = boot_events ++ concat (repeat (cycle_events (idle_after_boot w h)) n) /\
  generate_calls (trace s) = n.
Proof.
  intros Hok s. unfold s.
  rewrite run_app, (boot_to_idle w h b0 u0 Hok).
  destruct (spaced_presses_from_parked w n (idle_after_boot w h))
    as (P & _ & T & G); [split; reflexivity | reflexivity |].
  split; [exact P |]. split; [exact T |]. rewrite G. reflexivity.
Qed.

Lemma spaced_presses_run_one_cycle_each_witness :
  artifacts_ok good_world stories15M /\
  generate_calls
    (trace (run good_world (repeat Tick 14 ++ press_and_wait 3)
              (boot false false)))
  = 3%nat.
Proof.
  split; [split; reflexivity |].
  apply (spaced_presses_run_one_cycle_each good_world stories15M false false 3).
  split; reflexivity.
Defined.
